(** * MatchZoo: point generator and base preprocessor

    A shallow embedding of
    - [matchzoo/generators/point_generator.py] ([PointGenerator]) and
    - [matchzoo/engine/base_preprocessor.py] ([BasePreprocessor],
      [load_preprocessor]),
    together with the properties their specification states about them.

    Python exceptions are values of [exn]; a computation that may raise
    has type [result A]; a method that also mutates the [DataPack] it
    holds a reference to is a function in the state-and-error monad [M]. *)

From Stdlib Require Import ZArith QArith.
From stdpp Require Import gmap strings list fin_maps.

Local Open Scope string_scope.
Local Open Scope Z_scope.

(** ** Exceptions and results *)

Inductive exn : Type :=
  | NameError (name : string)
  | TypeError (msg : string)
  | AttributeError (msg : string)
  | ValueError (msg : string)
  | KeyError
  | IndexError
  | NotImplementedError
  | FileExistsError
  | FileNotFoundError
  | NotADirectoryError
  | IsADirectoryError
  | UnpicklingError.

Inductive result (A : Type) : Type :=
  | Ok (a : A)
  | Raise (e : exn).
Arguments Ok {A} a.
Arguments Raise {A} e.

Definition is_ok {A} (r : result A) : bool :=
  match r with Ok _ => true | Raise _ => false end.

Definition rbind {A B} (r : result A) (k : A -> result B) : result B :=
  match r with Ok a => k a | Raise e => Raise e end.

(** [for x in xs: ys.append(f x)], stopping at the first exception. *)
Fixpoint traverse {A B} (f : A -> result B) (xs : list A) : result (list B) :=
  match xs with
  | [] => Ok []
  | x :: xs' =>
      rbind (f x) (fun y => rbind (traverse f xs') (fun ys => Ok (y :: ys)))
  end.

(** State and error: the state survives an exception, as a mutated
    Python object does. *)
Definition M (S A : Type) : Type := S -> result A * S.

Definition ret {S A} (a : A) : M S A := fun s => (Ok a, s).
Definition raise {S A} (e : exn) : M S A := fun s => (Raise e, s).
Definition bind {S A B} (m : M S A) (k : A -> M S B) : M S B :=
  fun s => match m s with
           | (Ok a, s') => k a s'
           | (Raise e, s') => (Raise e, s')
           end.
Definition get {S} : M S S := fun s => (Ok s, s).
Definition modify {S} (f : S -> S) : M S unit := fun s => (Ok tt, f s).
Definition lift {S A} (r : result A) : M S A := fun s => (r, s).

Declare Scope py_scope.
Delimit Scope py_scope with py.
Notation "x <- c ;; k" := (bind c (fun x => k))
  (at level 100, c at next level, right associativity) : py_scope.
Notation "c ;;; k" := (bind c (fun _ => k))
  (at level 100, right associativity) : py_scope.

(** ** Data model *)

(** Cells of a feature column. *)
Inductive value : Type :=
  | VInt (z : Z)
  | VReal (q : Q)
  | VStr (s : string)
  | VSeq (zs : list Z).

(** Cells of the label column.  A float is idealised as a rational; the
    properties below only compare labels and use the floats 0.0 and 1.0. *)
Inductive cell : Type :=
  | CInt (z : Z)
  | CFloat (q : Q).

Inductive dtype : Type := DInt | DFloat.

(** [Series.astype], one cell: [int(x)] truncates toward zero. *)
Definition astype (d : dtype) (c : cell) : cell :=
  match d, c with
  | DInt, CInt z => CInt z
  | DInt, CFloat q => CInt (Z.quot (Qnum q) (Zpos (Qden q)))
  | DFloat, CInt z => CFloat (inject_Z z)
  | DFloat, CFloat q => CFloat q
  end.

(** Modelled from the spec: the entity table of [matchzoo.datapack], a
    frame indexed by unique string ids whose rows all carry the table's
    declared feature columns. *)
Record table : Type := {
  columns : list string;
  rows : gmap string (gmap string value)
}.

Record relation_row : Type := {
  id_left : string;
  id_right : string;
  label : cell
}.

(** Modelled from the spec: [matchzoo.datapack.DataPack], the two entity
    tables, the ordered relation table (columns [id_left], [id_right],
    [label], default integer index) and the stage. *)
Record DataPack : Type := {
  left : table;
  right : table;
  relation : list relation_row;
  stage : string
}.

(** Modelled from the spec: the task descriptor of [matchzoo.tasks]; it
    exposes [output_dtype] and, for a classification, [num_classes].
    [task_str] is what [str(task)] prints. *)
Inductive task_class : Type :=
  | Ranking
  | Classification (num_classes : nat)
  | OtherTask.

Record task : Type := {
  task_kind : task_class;
  output_dtype : dtype;
  task_str : string
}.

(** The label part of a batch: [None], a vector, or a matrix. *)
Inductive labels : Type :=
  | LNone
  | LVector (ys : list cell)
  | LMatrix (m : list (list Q)).

(** ** Frame and array primitives *)

(** Positional access [frame.iloc[i]]: negative positions count from the
    end, anything else out of bounds raises [IndexError]. *)
Definition iloc {A} (xs : list A) (i : Z) : result A :=
  let n := Z.of_nat (length xs) in
  let j := if i <? 0 then i + n else i in
  if (0 <=? j) && (j <? n)
  then match xs !! Z.to_nat j with Some x => Ok x | None => Raise IndexError end
  else Raise IndexError.

(** Label access [series[i]] on the default integer index: the label
    must be one of [0 .. n-1]. *)
Definition getitem {A} (xs : list A) (i : Z) : result A :=
  if (0 <=? i) && (i <? Z.of_nat (length xs))
  then match xs !! Z.to_nat i with Some x => Ok x | None => Raise KeyError end
  else Raise KeyError.

(** [table.loc[ids, column].tolist()] *)
Definition loc (t : table) (ids : list string) (column : string)
  : result (list value) :=
  traverse (fun id => match rows t !! id ≫= (.!! column) with
                      | Some v => Ok v
                      | None => Raise KeyError
                      end) ids.

(** [relation['label'] = relation['label'].astype(type_)] *)
Definition cast_labels (d : dtype) (dp : DataPack) : DataPack :=
  {| left := left dp;
     right := right dp;
     relation := map (fun r => {| id_left := id_left r;
                                  id_right := id_right r;
                                  label := astype d (label r) |})
                     (relation dp);
     stage := stage dp |}.

(** [np.zeros((n_rows, n_cols))] *)
Definition zeros (n_rows n_cols : nat) : list (list Q) :=
  replicate n_rows (replicate n_cols 0%Q).

(** [batch_y[idx, label] = 1]: both subscripts are bounds-checked, the
    column one after wrapping a negative value; a float is no index. *)
Definition setitem2 (m : list (list Q)) (idx : nat) (lab : cell)
  : result (list (list Q)) :=
  match m !! idx, lab with
  | Some row, CInt z =>
      let n := Z.of_nat (length row) in
      let j := if z <? 0 then z + n else z in
      if (0 <=? j) && (j <? n)
      then Ok (<[idx := <[Z.to_nat j := 1%Q]> row]> m)
      else Raise IndexError
  | _, _ => Raise IndexError
  end.

(** [for idx, label in enumerate(labels): batch_y[idx, label] = 1],
    with [idx] the running counter. *)
Fixpoint fill_one_hot (m : list (list Q)) (idx : nat) (labs : list cell)
  : result (list (list Q)) :=
  match labs with
  | [] => Ok m
  | lab :: labs' =>
      rbind (setitem2 m idx lab) (fun m' => fill_one_hot m' (S idx) labs')
  end.

(** ** The generators *)

(** Modelled from the spec: the base generator of [matchzoo.engine], of
    which only the construction parameters matter here: batch size,
    total row count, stage and shuffle flag. *)
Record BaseGenerator : Type := {
  batch_size : Z;
  num_instances : nat;
  gen_stage : string;
  shuffle : bool
}.

(** A [PointGenerator] object.  Its [_datapack] attribute is a reference
    to a [DataPack] that other generators may hold too: the pack is the
    state of the monad, not a field. *)
Record PointGenerator : Type := {
  _task : task;
  base : BaseGenerator
}.

(** [dict.fromkeys(columns, v)] *)
Definition fromkeys {A} (keys : list string) (v : A) : gmap string A :=
  foldr (fun k d => <[k := v]> d) ∅ keys.

(** The message of the [ValueError] for an unsupported task. *)
Definition invalid_task_msg (t : task) : string :=
  (task_str t +:+ " is not a valid task type.")
  +:+ ":class:`Ranking` and :class:`Classification` expected.".

Definition label_column (dp : DataPack) : list cell :=
  map label (relation dp).

(** Lines 99-108: the label batch for the three kinds of task, read from
    the already cast label column. *)
Definition encode_labels (t : task) (index_array : list Z) (dp : DataPack)
  : result labels :=
  match task_kind t with
  | Ranking =>
      rbind (traverse (getitem (label_column dp)) index_array)
            (fun ys => Ok (LVector ys))
  | Classification num_classes =>
      let batch_y := zeros (length index_array) num_classes in
      rbind (traverse (getitem (label_column dp)) index_array) (fun labs =>
      rbind (fill_one_hot batch_y 0 labs) (fun m => Ok (LMatrix m)))
  | OtherTask => Raise (ValueError (invalid_task_msg t))
  end.

(** [for column in t.columns: batch_x[column] = t.loc[ids, column].tolist()] *)
Fixpoint gather_columns (t : table) (ids : list string) (cols : list string)
    (batch_x : gmap string (list value)) : result (gmap string (list value)) :=
  match cols with
  | [] => Ok batch_x
  | column :: cols' =>
      rbind (loc t ids column)
            (fun v => gather_columns t ids cols' (<[column := v]> batch_x))
  end.

(** [relation.iloc[index_array, 0]] and [relation.iloc[index_array, 1]] *)
Definition iloc_column (f : relation_row -> string) (rel : list relation_row)
    (index_array : list Z) : result (list string) :=
  traverse (fun i => rbind (iloc rel i) (fun r => Ok (f r))) index_array.

(** [PointGenerator._get_batch_of_transformed_samples].  The closing
    [np.array(val)] loop keeps keys and lengths and is the identity on
    lists. *)
Definition _get_batch_of_transformed_samples (self : PointGenerator)
    (index_array : list Z)
  : M DataPack (gmap string (list value) * labels) :=
  (datapack <- get ;;
   let left_columns := columns (left datapack) in
   let right_columns := columns (right datapack) in
   let cols :=
     (left_columns ++ right_columns ++ ["id_left"; "id_right"])%list in
   let batch_x : gmap string (list value) := fromkeys cols [] in
   batch_y <- (if String.eqb (stage datapack) "train"
               then
                 modify (cast_labels (output_dtype (_task self))) ;;;
                 datapack' <- get ;;
                 lift (encode_labels (_task self) index_array datapack')
               else ret LNone) ;;
   datapack' <- get ;;
   ids_left <- lift (iloc_column id_left (relation datapack') index_array) ;;
   let batch_x := <["id_left" := map VStr ids_left]> batch_x in
   batch_x <- lift (gather_columns (left datapack') ids_left
                                   (columns (left datapack')) batch_x) ;;
   ids_right <- lift (iloc_column id_right (relation datapack') index_array) ;;
   let batch_x := <["id_right" := map VStr ids_right]> batch_x in
   batch_x <- lift (gather_columns (right datapack') ids_right
                                   (columns (right datapack')) batch_x) ;;
   ret (batch_x, batch_y))%py.

(** The data of the class docstring. *)
Definition doc_left : table :=
  {| columns := ["text_left"; "length_left"];
     rows := {[ "qid0" := {[ "text_left" := VSeq [1; 2];
                             "length_left" := VInt 2 ]} ]} |}.
Definition doc_right : table :=
  {| columns := ["text_right"; "length_right"];
     rows := {[ "did0" := {[ "text_right" := VSeq [2; 3];
                             "length_right" := VInt 2 ]} ]} |}.
Definition doc_pack : DataPack :=
  {| left := doc_left; right := doc_right;
     relation := [ {| id_left := "qid0"; id_right := "did0";
                      label := CInt 1 |} ];
     stage := "train" |}.
Definition classification (n : nat) : task :=
  {| task_kind := Classification n; output_dtype := DInt;
     task_str := "Classification" |}.
Definition ranking : task :=
  {| task_kind := Ranking; output_dtype := DFloat; task_str := "Ranking" |}.
Definition point_generator (t : task) (n : nat) : PointGenerator :=
  {| _task := t;
     base := {| batch_size := 1; num_instances := n;
                gen_stage := "train"; shuffle := false |} |}.

(** A task of neither supported kind. *)
Definition other_task : task :=
  {| task_kind := OtherTask; output_dtype := DFloat; task_str := "Regression" |}.

(** The docstring's pack at the predict stage. *)
Definition doc_pack_predict : DataPack :=
  {| left := doc_left; right := doc_right;
     relation := relation doc_pack; stage := "predict" |}.

(** The docstring's pack with another label in its one relation row. *)
Definition doc_pack_with_label (c : cell) : DataPack :=
  {| left := doc_left; right := doc_right;
     relation := [ {| id_left := "qid0"; id_right := "did0"; label := c |} ];
     stage := "train" |}.
Definition doc_pack_label_2 : DataPack := doc_pack_with_label (CInt 2).
Definition doc_pack_label_minus_1 : DataPack := doc_pack_with_label (CInt (-1)).

(** A predict-stage pack whose relation row names a left id that the
    left table does not have. *)
Definition dangling_pack : DataPack :=
  {| left := doc_left; right := doc_right;
     relation := [ {| id_left := "qid9"; id_right := "did0";
                      label := CInt 1 |} ];
     stage := "predict" |}.

(** The feature dictionary the docstring shows for batch 0. *)
Definition doc_features : gmap string (list value) :=
  {[ "text_left" := [VSeq [1; 2]];
     "length_left" := [VInt 2];
     "text_right" := [VSeq [2; 3]];
     "length_right" := [VInt 2];
     "id_left" := [VStr "qid0"];
     "id_right" := [VStr "did0"] ]}.

(** Batch requests arriving, in order, at one [DataPack]; each comes
    from some generator built over that pack. *)
Record request : Type := {
  req_generator : PointGenerator;
  req_index_array : list Z
}.

(** The pack after a request, whether the request returned or raised. *)
Definition serve (r : request) (dp : DataPack) : DataPack :=
  snd (_get_batch_of_transformed_samples (req_generator r)
                                         (req_index_array r) dp).

Definition serve_all (rs : list request) (dp : DataPack) : DataPack :=
  foldl (fun dp r => serve r dp) dp rs.

Definition ranking_request : request :=
  {| req_generator := point_generator ranking 1; req_index_array := [0] |}.
Definition classification_request : request :=
  {| req_generator := point_generator (classification 2) 1;
     req_index_array := [0] |}.

(** [needle in s] on strings. *)
Fixpoint contains (needle s : string) : bool :=
  String.prefix needle s ||
  match s with
  | EmptyString => false
  | String _ s' => contains needle s'
  end.

(** Sum of a matrix row. *)
Definition row_sum (row : list Q) : Q := foldr Qplus 0%Q row.

(** A valid class index for [num_classes] classes. *)
Definition valid_class_index (num_classes : nat) (c : cell) : Prop :=
  match c with
  | CInt z => 0 <= z < Z.of_nat num_classes
  | CFloat _ => False
  end.

(** What the array subscript accepts: integers of [-n .. n-1]. *)
Definition accepted_index (num_classes : nat) (c : cell) : Prop :=
  match c with
  | CInt z => - Z.of_nat num_classes <= z < Z.of_nat num_classes
  | CFloat _ => False
  end.

(** The one-hot row for class [k] of [num_classes]. *)
Definition one_hot (num_classes : nat) (k : nat) : list Q :=
  <[k := 1%Q]> (replicate num_classes 0%Q).

(** ** Constructing a [PointGenerator] *)

(** Values a name can be bound to in a call of the constructor. *)
Inductive pyval : Type :=
  | PNone
  | PInt (z : Z)
  | PBool (b : bool)
  | PStr (s : string)
  | PTask (t : task)
  | PPack (dp : DataPack)
  | PGlobal (name : string).

(** The names bound at module level in [point_generator.py]. *)
Definition module_globals : list string :=
  ["engine"; "tasks"; "DataPack"; "utils"; "np"; "typing"; "PointGenerator"].

(** The functions and constants of Python's [builtins] module. *)
Definition builtins : list string :=
  ["abs"; "aiter"; "all"; "anext"; "any"; "ascii"; "bin"; "bool";
   "breakpoint"; "bytearray"; "bytes"; "callable"; "chr"; "classmethod";
   "compile"; "complex"; "delattr"; "dict"; "dir"; "divmod"; "enumerate";
   "eval"; "exec"; "filter"; "float"; "format"; "frozenset"; "getattr";
   "globals"; "hasattr"; "hash"; "help"; "hex"; "id"; "input"; "int";
   "isinstance"; "issubclass"; "iter"; "len"; "list"; "locals"; "map";
   "max"; "memoryview"; "min"; "next"; "object"; "oct"; "open"; "ord";
   "pow"; "print"; "property"; "range"; "repr"; "reversed"; "round";
   "set"; "setattr"; "slice"; "sorted"; "staticmethod"; "str"; "sum";
   "super"; "tuple"; "type"; "vars"; "zip"; "__import__";
   "True"; "False"; "None"; "Ellipsis"; "NotImplemented"; "__debug__"].

(** Reading a name inside the body of [__init__]: the parameters, then
    the module, then the builtins, else [NameError]. *)
Definition load_name (locals : gmap string pyval) (name : string)
  : result pyval :=
  match locals !! name with
  | Some v => Ok v
  | None =>
      if bool_decide (name ∈ module_globals) || bool_decide (name ∈ builtins)
      then Ok (PGlobal name)
      else Raise (NameError name)
  end.

(** The parameters of [PointGenerator.__init__] after [self], with their
    defaults: [datapack, task=Classification(2), batch_size=32,
    shuffle=True]. *)
Definition init_params : list (string * option pyval) :=
  [ ("datapack", None);
    ("task", Some (PTask (classification 2)));
    ("batch_size", Some (PInt 32));
    ("shuffle", Some (PBool true)) ].

(** Positional arguments fill the parameters from the left; one too
    many is a [TypeError]. *)
Fixpoint bind_positional (params : list (string * option pyval))
    (args : list pyval) : result (gmap string pyval) :=
  match args, params with
  | [], _ => Ok ∅
  | _ :: _, [] => Raise (TypeError "too many positional arguments")
  | a :: args', (name, _) :: params' =>
      rbind (bind_positional params' args') (fun env => Ok (<[name := a]> env))
  end.

(** Keyword arguments must name a parameter that is still free. *)
Fixpoint bind_keywords (params : list (string * option pyval))
    (kwargs : list (string * pyval)) (env : gmap string pyval)
  : result (gmap string pyval) :=
  match kwargs with
  | [] => Ok env
  | (name, v) :: kwargs' =>
      if bool_decide (name ∈ map fst params)
      then match env !! name with
           | Some _ => Raise (TypeError "got multiple values for argument")
           | None => bind_keywords params kwargs' (<[name := v]> env)
           end
      else Raise (TypeError "got an unexpected keyword argument")
  end.

(** Parameters left free take their default; one without a default is a
    [TypeError]. *)
Fixpoint bind_defaults (params : list (string * option pyval))
    (env : gmap string pyval) : result (gmap string pyval) :=
  match params with
  | [] => Ok env
  | (name, default) :: params' =>
      match env !! name, default with
      | Some _, _ => bind_defaults params' env
      | None, Some d => bind_defaults params' (<[name := d]> env)
      | None, None => Raise (TypeError "missing a required argument")
      end
  end.

Definition bind_arguments (params : list (string * option pyval))
    (args : list pyval) (kwargs : list (string * pyval))
  : result (gmap string pyval) :=
  rbind (bind_positional params args) (fun env =>
  rbind (bind_keywords params kwargs env) (bind_defaults params)).

(** Modelled from the spec: [BaseGenerator.__init__(batch_size,
    num_instances, stage, shuffle)] of [matchzoo.engine], which records
    its four construction parameters. *)
Definition BaseGenerator__init__ (batch_size num_instances stage shuffle : pyval)
  : result BaseGenerator :=
  match batch_size, num_instances, stage, shuffle with
  | PInt b, PInt n, PStr s, PBool sh =>
      Ok {| batch_size := b; num_instances := Z.to_nat n;
            gen_stage := s; shuffle := sh |}
  | _, _, _, _ => Raise (TypeError "generator parameters")
  end.

(** [len(datapack.relation)] *)
Definition len_relation (datapack : pyval) : result pyval :=
  match datapack with
  | PPack dp => Ok (PInt (Z.of_nat (length (relation dp))))
  | _ => Raise (AttributeError "relation")
  end.

(** The body of [PointGenerator.__init__], lines 72-74: the two
    attribute assignments, then the arguments of [super().__init__]
    evaluated from left to right. *)
Definition PointGenerator__init__ (locals : gmap string pyval)
  : result PointGenerator :=
  rbind (load_name locals "datapack") (fun _datapack =>
  rbind (load_name locals "task") (fun task_ =>
  rbind (load_name locals "batch_size") (fun a1 =>
  rbind (rbind (load_name locals "datapack") len_relation) (fun a2 =>
  rbind (load_name locals "stage") (fun a3 =>
  rbind (load_name locals "shuffle") (fun a4 =>
  rbind (BaseGenerator__init__ a1 a2 a3 a4) (fun b =>
  match task_ with
  | PTask t => Ok {| _task := t; base := b |}
  | _ => Raise (TypeError "task")
  end))))))).

(** A call of the class with positional and keyword arguments. *)
Definition PointGenerator_new (args : list pyval) (kwargs : list (string * pyval))
  : result PointGenerator :=
  rbind (bind_arguments init_params args kwargs) PointGenerator__init__.

(** ** The base preprocessor *)

(** A preprocessor object: its class and its fitted state, the
    [_context] dictionary that [__init__] creates empty. *)
Record preprocessor : Type := {
  class_name : string;
  _context : gmap string value
}.

Definition context (self : preprocessor) : gmap string value := _context self.

Definition DATA_FILENAME : string := "preprocessor.dill".

(** *** Abstract methods *)

(** A function stored in a class: the flag [abc.abstractmethod] sets on
    it, and its body, called with [self] and [inputs]. *)
Record method : Type := {
  isabstractmethod : bool;
  body : preprocessor -> list (string * string) -> result pyval
}.

(** [BasePreprocessor.fit] and [BasePreprocessor.transform]: decorated
    with [abc.abstractmethod]; the body is a docstring and nothing else,
    so a call falls off its end and returns [None]. *)
Definition BasePreprocessor_fit : method :=
  {| isabstractmethod := true; body := fun _ _ => Ok PNone |}.
Definition BasePreprocessor_transform : method :=
  {| isabstractmethod := true; body := fun _ _ => Ok PNone |}.

Definition BasePreprocessor_namespace : gmap string method :=
  {[ "fit" := BasePreprocessor_fit;
     "transform" := BasePreprocessor_transform ]}.

(** A class deriving from [BasePreprocessor], given by what its own
    body defines. *)
Record pyclass : Type := {
  cls_name : string;
  namespace : gmap string method
}.

(** Attribute lookup on the class: its own namespace, then the base. *)
Definition getattr (c : pyclass) (name : string) : option method :=
  match namespace c !! name with
  | Some m => Some m
  | None => BasePreprocessor_namespace !! name
  end.

Definition is_abstract (c : pyclass) (name : string) : bool :=
  match getattr c name with
  | Some m => isabstractmethod m
  | None => false
  end.

(** [ABCMeta.__new__] computes [__abstractmethods__]: the abstract names
    of the class's own namespace, and those of the base, [fit] and
    [transform], that still resolve to an abstract function. *)
Definition abstractmethods (c : pyclass) : list string :=
  (filter (fun name => is_abstract c name = true)
          (map fst (map_to_list (namespace c))) ++
   filter (fun name => is_abstract c name = true) ["fit"; "transform"])%list.

(** [object.__new__] refuses a class with abstract methods; otherwise
    [BasePreprocessor.__init__] sets [_context] to an empty dict. *)
Definition instantiate (c : pyclass) : result preprocessor :=
  match abstractmethods c with
  | [] => Ok {| class_name := cls_name c; _context := ∅ |}
  | _ :: _ =>
      Raise (TypeError ("Can't instantiate abstract class " +:+ cls_name c))
  end.

(** Calling [name] through the class, [C.name(self, inputs)]. *)
Definition invoke (c : pyclass) (name : string) (self : preprocessor)
    (inputs : list (string * string)) : result pyval :=
  match getattr c name with
  | Some m => body m self inputs
  | None => Raise (AttributeError name)
  end.

(** The usual call [C().name(inputs)]: instantiate, then call. *)
Definition instantiate_and_call (c : pyclass) (name : string)
    (inputs : list (string * string)) : result pyval :=
  rbind (instantiate c) (fun self => invoke c name self inputs).

(** A subclass whose body defines neither [fit] nor [transform]. *)
Definition incomplete_class : pyclass :=
  {| cls_name := "Incomplete"; namespace := ∅ |}.

(** A subclass that defines both. *)
Definition complete_class : pyclass :=
  {| cls_name := "Complete";
     namespace :=
       {[ "fit" := {| isabstractmethod := false;
                      body := fun _ _ => Ok (PStr "self") |};
          "transform" := {| isabstractmethod := false;
                            body := fun _ _ => Ok (PPack doc_pack) |} ]} |}.

(** *** Persistence *)

(** A path is the list of its components below the root, outermost
    first. *)
Definition path : Type := list string.

Definition joinpath (p : path) (name : string) : path := (p ++ [name])%list.

(** [Path.parent] *)
Definition dirname (p : path) : path := removelast p.

(** The [dill] serializer, over whatever a file holds. *)
Class Dill (blob : Type) : Type := {
  dumps : preprocessor -> blob;
  loads : blob -> option preprocessor
}.

(** A file system is a tree: a file with its contents, or a directory
    with its entries.  The state of the persistence functions is the
    root node. *)
Inductive node (blob : Type) : Type :=
  | File (data : blob)
  | Dir (entries : gmap string (node blob)).
Arguments File {blob} data.
Arguments Dir {blob} entries.

Section FileSystem.
Context {blob : Type} `{Dill blob}.

(** Path resolution from a node: a missing entry is [FileNotFoundError],
    descending into a file is [NotADirectoryError]. *)
Fixpoint walk (n : node blob) (p : path) : result (node blob) :=
  match p with
  | [] => Ok n
  | name :: p' =>
      match n with
      | Dir entries =>
          match entries !! name with
          | Some child => walk child p'
          | None => Raise FileNotFoundError
          end
      | File _ => Raise NotADirectoryError
      end
  end.

(** The tree with [new] as the node at [p]; the parent of [p] must
    resolve to a directory. *)
Fixpoint put (n : node blob) (p : path) (new : node blob)
  : option (node blob) :=
  match p with
  | [] => Some new
  | name :: p' =>
      match n with
      | Dir entries =>
          match p', entries !! name with
          | [], _ => Some (Dir (<[name := new]> entries))
          | _ :: _, Some child =>
              match put child p' new with
              | Some child' => Some (Dir (<[name := child']> entries))
              | None => None
              end
          | _ :: _, None => None
          end
      | File _ => None
      end
  end.

(** [Path.exists()]: the errors of path resolution mean "no". *)
Definition path_exists (root : node blob) (p : path) : bool :=
  is_ok (walk root p).

Definition is_dir (root : node blob) (p : path) : bool :=
  match walk root p with Ok (Dir _) => true | _ => false end.

(** Creating or replacing the node at [p] under an existing parent
    directory; the errors are those of resolving the parent. *)
Definition create (p : path) (new : node blob) : M (node blob) unit :=
  fun root =>
    match walk root (dirname p) with
    | Ok (Dir _) =>
        match put root p new with
        | Some root' => (Ok tt, root')
        | None => (Raise FileNotFoundError, root)
        end
    | Ok (File _) => (Raise NotADirectoryError, root)
    | Raise e => (Raise e, root)
    end.

(** [Path.mkdir()], without [parents] and without [exist_ok]. *)
Definition mkdir (p : path) : M (node blob) unit :=
  fun root =>
    match walk root p with
    | Ok _ => (Raise FileExistsError, root)
    | Raise _ => create p (Dir ∅) root
    end.

(** [dill.dump(obj, open(p, mode='wb'))]: the file is created or
    truncated, then holds the serialized object. *)
Definition dump (obj : preprocessor) (p : path) : M (node blob) unit :=
  fun root =>
    match walk root p with
    | Ok (Dir _) => (Raise IsADirectoryError, root)
    | _ => create p (File (dumps obj)) root
    end.

(** [dill.load(open(p, 'rb'))] *)
Definition load (p : path) : M (node blob) preprocessor :=
  fun root =>
    match walk root p with
    | Ok (File data) =>
        match loads data with
        | Some obj => (Ok obj, root)
        | None => (Raise UnpicklingError, root)
        end
    | Ok (Dir _) => (Raise IsADirectoryError, root)
    | Raise e => (Raise e, root)
    end.

(** [BasePreprocessor.save] *)
Definition save (self : preprocessor) (dirpath : path) : M (node blob) unit :=
  (let data_file_path := joinpath dirpath DATA_FILENAME in
   root <- get ;;
   (if path_exists root data_file_path
    then raise FileExistsError
    else if negb (path_exists root dirpath)
         then mkdir dirpath
         else ret tt) ;;;
   dump self data_file_path)%py.

(** [load_preprocessor] *)
Definition load_preprocessor (dirpath : path) : M (node blob) preprocessor :=
  let data_file_path := joinpath dirpath DATA_FILENAME in
  load data_file_path.

End FileSystem.

(** An in-memory serializer: a file holds the object graph itself. *)
Definition memory_dill : Dill preprocessor :=
  {| dumps := fun p => p; loads := fun b => Some b |}.

Definition fitted : preprocessor :=
  {| class_name := "DSSMPreprocessor";
     _context := {[ "dim_triletter" := VInt 3 ]} |}.

(** Two small file systems over the in-memory serializer: an empty
    root, and a root whose directory [model] holds a saved object. *)
Definition empty_root : node preprocessor := Dir ∅.

Definition other_fitted : preprocessor :=
  {| class_name := "DSSMPreprocessor";
     _context := {[ "dim_triletter" := VInt 7 ]} |}.

Definition saved_root : node preprocessor :=
  Dir {[ "model" := Dir {[ DATA_FILENAME := File other_fitted ]} ]}.

(** The feature part of a batch, lines 87-91 and 110-121, as a function
    of the pack it reads. *)
Definition features_of (dp : DataPack) (index_array : list Z)
  : result (gmap string (list value)) :=
  let cols :=
    (columns (left dp) ++ columns (right dp) ++ ["id_left"; "id_right"])%list in
  let batch_x : gmap string (list value) := fromkeys cols [] in
  rbind (iloc_column id_left (relation dp) index_array) (fun ids_left =>
  rbind (gather_columns (left dp) ids_left (columns (left dp))
                        (<["id_left" := map VStr ids_left]> batch_x))
        (fun batch_x =>
  rbind (iloc_column id_right (relation dp) index_array) (fun ids_right =>
  gather_columns (right dp) ids_right (columns (right dp))
                 (<["id_right" := map VStr ids_right]> batch_x)))).

(** The spec's invariants of a pack: every id of the relation table
    has a row in its entity table, and that row has a cell for each of
    the table's columns. *)
Definition table_has (t : table) (id : string) : Prop :=
  exists row, rows t !! id = Some row
              /\ forall c, c ∈ columns t -> is_Some (row !! c).

Definition referential_integrity (dp : DataPack) : Prop :=
  Forall (fun r => table_has (left dp) (id_left r)
                   /\ table_has (right dp) (id_right r))
         (relation dp).

(** A cell after the casts of successive train-stage requests, oldest
    first. *)
Definition cast_through (ds : list dtype) (c : cell) : cell :=
  foldl (fun c d => astype d c) c ds.

Definition request_dtype (r : request) : dtype :=
  output_dtype (_task (req_generator r)).

(** The empty label batch of a task. *)
Definition empty_labels (k : task_class) : labels :=
  match k with
  | Ranking => LVector []
  | Classification _ => LMatrix []
  | OtherTask => LNone
  end.

(** Joining two batches row-wise: arrays are appended, and so are
    label vectors and the rows of label matrices. *)
Definition concat_arrays (a b : option (list value)) : option (list value) :=
  match a, b with
  | Some v1, Some v2 => Some (v1 ++ v2)%list
  | _, _ => None
  end.

Definition labels_app (y1 y2 : labels) : labels :=
  match y1, y2 with
  | LVector a, LVector b => LVector (a ++ b)%list
  | LMatrix a, LMatrix b => LMatrix (a ++ b)%list
  | _, _ => LNone
  end.

Definition to_option {A} (r : result A) : option A :=
  match r with Ok a => Some a | Raise _ => None end.

(** The array a returned feature dictionary holds under a key, given
    the left and right ids of the batch rows: the assignment made last
    wins (right columns, [id_right], left columns, [id_left]). *)
Definition feature_entry (dp : DataPack) (ids_left ids_right : list string)
    (k : string) : option (list value) :=
  if decide (k ∈ columns (right dp)) then to_option (loc (right dp) ids_right k)
  else if decide (k = "id_right") then Some (map VStr ids_right)
  else if decide (k ∈ columns (left dp)) then to_option (loc (left dp) ids_left k)
  else if decide (k = "id_left") then Some (map VStr ids_left)
  else None.

(** * Properties *)

(** ** Results and traversals *)

Lemma rbind_ok {A B} (r : result A) (k : A -> result B) (b : B) :
  rbind r k = Ok b -> exists a, r = Ok a /\ k a = Ok b.
Proof. destruct r as [a|e]; simpl; [eauto | discriminate]. Qed.

Lemma traverse_ok_Forall2 {A B} (f : A -> result B) xs ys :
  traverse f xs = Ok ys -> Forall2 (fun x y => f x = Ok y) xs ys.
Proof.
  revert ys. induction xs as [|x xs IH]; simpl; intros ys Hys.
  - injection Hys as <-. constructor.
  - apply rbind_ok in Hys as (y & Hy & Hys).
    apply rbind_ok in Hys as (ys' & Hys' & Hys).
    injection Hys as <-. constructor; auto.
Qed.

Lemma Forall2_traverse_ok {A B} (f : A -> result B) xs ys :
  Forall2 (fun x y => f x = Ok y) xs ys -> traverse f xs = Ok ys.
Proof.
  induction 1 as [|x y xs ys Hxy _ IH]; simpl; [reflexivity|].
  rewrite Hxy; simpl. rewrite IH. reflexivity.
Qed.

Lemma traverse_ok_length {A B} (f : A -> result B) xs ys :
  traverse f xs = Ok ys -> length ys = length xs.
Proof.
  intros Hys. apply traverse_ok_Forall2 in Hys.
  symmetry. eapply Forall2_length, Hys.
Qed.

Lemma getitem_ok {A} (xs : list A) i x :
  getitem xs i = Ok x <-> 0 <= i /\ xs !! Z.to_nat i = Some x.
Proof.
  unfold getitem.
  destruct (0 <=? i) eqn:H0; simpl.
  - destruct (i <? Z.of_nat (length xs)) eqn:Hn.
    + destruct (xs !! Z.to_nat i) as [x'|] eqn:Hx.
      * split; [intros [= ->]; split; [lia | reflexivity]|].
        intros [_ [= ->]]; reflexivity.
      * split; [discriminate | intros [_ [=]]].
    + split; [discriminate|]. intros [_ Hx].
      apply lookup_lt_Some in Hx. lia.
  - split; [discriminate | lia].
Qed.

Lemma getitem_in_range {A} (xs : list A) i :
  0 <= i < Z.of_nat (length xs) -> exists x, getitem xs i = Ok x.
Proof.
  intros Hi. destruct (lookup_lt_is_Some_2 xs (Z.to_nat i)) as [x Hx]; [lia|].
  exists x. apply getitem_ok. split; [lia | exact Hx].
Qed.

(** ** The batch function unfolded *)

Lemma get_batch_eq (self : PointGenerator) (index_array : list Z) (dp : DataPack) :
  _get_batch_of_transformed_samples self index_array dp =
  if String.eqb (stage dp) "train" then
    let dp' := cast_labels (output_dtype (_task self)) dp in
    match encode_labels (_task self) index_array dp' with
    | Ok batch_y =>
        (rbind (features_of dp' index_array) (fun bx => Ok (bx, batch_y)), dp')
    | Raise e => (Raise e, dp')
    end
  else
    (rbind (features_of dp index_array) (fun bx => Ok (bx, LNone)), dp).
Proof.
  unfold _get_batch_of_transformed_samples, features_of, bind, get, modify,
    lift, ret.
  destruct (String.eqb (stage dp) "train"); simpl.
  - destruct (encode_labels _ _ _) as [y|e]; simpl; [|reflexivity].
    destruct (iloc_column id_left _ _) as [l|e]; simpl; [|reflexivity].
    destruct (gather_columns _ l _ _) as [bx|e]; simpl; [|reflexivity].
    destruct (iloc_column id_right _ _) as [r|e]; simpl; [|reflexivity].
    destruct (gather_columns _ r _ _) as [bx'|e]; reflexivity.
  - destruct (iloc_column id_left _ _) as [l|e]; simpl; [|reflexivity].
    destruct (gather_columns _ l _ _) as [bx|e]; simpl; [|reflexivity].
    destruct (iloc_column id_right _ _) as [r|e]; simpl; [|reflexivity].
    destruct (gather_columns _ r _ _) as [bx'|e]; reflexivity.
Qed.

Lemma get_batch_state (self : PointGenerator) (index_array : list Z) (dp : DataPack) :
  snd (_get_batch_of_transformed_samples self index_array dp) =
  if String.eqb (stage dp) "train"
  then cast_labels (output_dtype (_task self)) dp
  else dp.
Proof.
  rewrite get_batch_eq.
  destruct (String.eqb (stage dp) "train"); simpl; [|reflexivity].
  destruct (encode_labels _ _ _); reflexivity.
Qed.

(** ** Ranking labels *)

Lemma label_column_cast (d : dtype) (dp : DataPack) :
  label_column (cast_labels d dp) = map (astype d) (label_column dp).
Proof.
  unfold label_column, cast_labels; simpl.
  rewrite !map_map. reflexivity.
Qed.

(** C4. A train-stage batch under a Ranking task returns, as labels, the
    vector of the cast label column read at the positions of the index
    array, one scalar per position and in the order of the index array;
    the cast column is the relation table's label column with every cell
    cast to the task's output dtype. *)
Theorem ranking_labels_follow_index_array
    (self : PointGenerator) (index_array : list Z) (dp dp' : DataPack)
    (batch_x : gmap string (list value)) (batch_y : labels) :
  stage dp = "train" ->
  task_kind (_task self) = Ranking ->
  _get_batch_of_transformed_samples self index_array dp
    = (Ok (batch_x, batch_y), dp') ->
  label_column dp' = map (astype (output_dtype (_task self))) (label_column dp)
  /\ exists ys,
       batch_y = LVector ys
       /\ length ys = length index_array
       /\ Forall2 (fun i y => 0 <= i /\ label_column dp' !! Z.to_nat i = Some y)
                  index_array ys.
Proof.
  intros Hstage Hkind Hrun.
  rewrite get_batch_eq, Hstage in Hrun; simpl in Hrun.
  unfold encode_labels in Hrun. rewrite Hkind in Hrun.
  destruct (traverse _ index_array) as [ys|e] eqn:Hys; simpl in Hrun;
    [|discriminate].
  destruct (features_of _ _) as [bx|e]; simpl in Hrun; [|discriminate].
  injection Hrun as <- <- <-.
  split; [apply label_column_cast|].
  exists ys. split; [reflexivity|].
  split; [eapply traverse_ok_length, Hys|].
  apply traverse_ok_Forall2 in Hys.
  eapply Forall2_impl; [exact Hys|].
  intros i y Hy. apply getitem_ok in Hy. exact Hy.
Qed.

Lemma ranking_labels_follow_index_array_witness :
  label_column (cast_labels DFloat doc_pack)
    = map (astype DFloat) (label_column doc_pack)
  /\ exists ys,
       LVector [CFloat 1%Q] = LVector ys
       /\ length ys = length [0]
       /\ Forall2 (fun i y => 0 <= i /\
                     label_column (cast_labels DFloat doc_pack) !! Z.to_nat i
                       = Some y)
                  [0] ys.
Proof.
  apply (ranking_labels_follow_index_array
           (point_generator ranking 1) [0] doc_pack
           (cast_labels DFloat doc_pack) doc_features (LVector [CFloat 1%Q])).
  - reflexivity.
  - reflexivity.
  - vm_compute. reflexivity.
Defined.

(** ** Unsupported tasks *)

Lemma contains_app_r (needle a b : string) :
  contains needle b = true -> contains needle (a +:+ b) = true.
Proof.
  intros Hb. induction a as [|c a IH]; simpl; [exact Hb|].
  rewrite IH. apply orb_true_r.
Qed.

Lemma invalid_task_msg_names_both (t : task) :
  contains "Ranking" (invalid_task_msg t) = true
  /\ contains "Classification" (invalid_task_msg t) = true.
Proof.
  unfold invalid_task_msg.
  split; apply contains_app_r; vm_compute; reflexivity.
Qed.

Lemma get_batch_not_train (self : PointGenerator) (index_array : list Z)
    (dp : DataPack) :
  stage dp <> "train" ->
  _get_batch_of_transformed_samples self index_array dp
  = (rbind (features_of dp index_array) (fun bx => Ok (bx, LNone)), dp).
Proof.
  intros Hstage. rewrite get_batch_eq.
  destruct (String.eqb (stage dp) "train") eqn:E; [|reflexivity].
  apply String.eqb_eq in E. contradiction.
Qed.

(** C6, as the code has it.  A train-stage batch request under a task
    that is neither a Ranking nor a Classification raises a [ValueError]
    whose message names both supported kinds.  At any other stage the
    task is not looked at: the request returns the features with no
    labels, or the exception of the feature lookup. *)
Theorem unsupported_task_raises_at_train_stage
    (self : PointGenerator) (index_array : list Z) (dp : DataPack) :
  task_kind (_task self) = OtherTask ->
  (stage dp = "train" ->
     fst (_get_batch_of_transformed_samples self index_array dp)
       = Raise (ValueError (invalid_task_msg (_task self)))
     /\ contains "Ranking" (invalid_task_msg (_task self)) = true
     /\ contains "Classification" (invalid_task_msg (_task self)) = true)
  /\ (stage dp <> "train" ->
        _get_batch_of_transformed_samples self index_array dp
        = (rbind (features_of dp index_array) (fun bx => Ok (bx, LNone)), dp)).
Proof.
  intros Hkind. split.
  - intros Hstage. split; [|apply invalid_task_msg_names_both].
    rewrite get_batch_eq, Hstage; simpl.
    unfold encode_labels. rewrite Hkind. reflexivity.
  - apply get_batch_not_train.
Qed.

Lemma unsupported_task_raises_at_train_stage_witness :
  fst (_get_batch_of_transformed_samples
         (point_generator other_task 1) [0] doc_pack)
    = Raise (ValueError (invalid_task_msg other_task))
  /\ contains "Ranking" (invalid_task_msg other_task) = true
  /\ contains "Classification" (invalid_task_msg other_task) = true.
Proof.
  apply (unsupported_task_raises_at_train_stage
           (point_generator other_task 1) [0] doc_pack eq_refl).
  reflexivity.
Defined.

(** C6 as stated fails: at the predict stage a request under an
    unsupported task returns a batch. *)
Lemma unsupported_task_served_at_predict_stage :
  task_kind (_task (point_generator other_task 1)) = OtherTask
  /\ _get_batch_of_transformed_samples
       (point_generator other_task 1) [0] doc_pack_predict
     = (Ok (doc_features, LNone), doc_pack_predict).
Proof. split; [reflexivity|]. vm_compute. reflexivity. Qed.

(** ** The label cast *)

Lemma astype_idempotent (d : dtype) (c : cell) :
  astype d (astype d c) = astype d c.
Proof. destruct d, c; reflexivity. Qed.

Lemma cast_labels_idempotent (d : dtype) (dp : DataPack) :
  cast_labels d (cast_labels d dp) = cast_labels d dp.
Proof.
  unfold cast_labels; simpl. f_equal.
  rewrite map_map. apply map_ext. intros r; simpl.
  rewrite astype_idempotent. reflexivity.
Qed.

Lemma serve_eq (r : request) (dp : DataPack) :
  serve r dp =
  if String.eqb (stage dp) "train"
  then cast_labels (output_dtype (_task (req_generator r))) dp
  else dp.
Proof. unfold serve. apply get_batch_state. Qed.

Lemma serve_all_not_train (rs : list request) (dp : DataPack) :
  stage dp <> "train" -> serve_all rs dp = dp.
Proof.
  intros Hstage. induction rs as [|r rs IH]; simpl; [reflexivity|].
  rewrite serve_eq.
  destruct (String.eqb (stage dp) "train") eqn:E; [|exact IH].
  apply String.eqb_eq in E. contradiction.
Qed.

Lemma serve_all_same_dtype (d : dtype) (rs : list request) (dp : DataPack) :
  Forall (fun r => output_dtype (_task (req_generator r)) = d) rs ->
  serve_all rs (cast_labels d dp) = cast_labels d dp.
Proof.
  induction 1 as [|r rs Hr _ IH]; simpl; [reflexivity|].
  rewrite serve_eq, Hr; simpl.
  destruct (String.eqb (stage dp) "train"); [|exact IH].
  rewrite cast_labels_idempotent. exact IH.
Qed.

(** C7, as the code has it.  There is no once-only guard: every
    train-stage batch request assigns the label column cast to the
    output dtype of the requesting generator's task, and a request at
    another stage leaves the pack alone.  The cast being idempotent, in
    a sequence of requests whose tasks share one output dtype every
    request after the first leaves the relation table as it found it. *)
Theorem label_cast_runs_on_every_train_request
    (r : request) (rs : list request) (dp : DataPack) :
  serve r dp
    = (if String.eqb (stage dp) "train"
       then cast_labels (output_dtype (_task (req_generator r))) dp
       else dp)
  /\ (stage dp <> "train" -> serve_all (r :: rs) dp = dp)
  /\ (Forall (fun r' => output_dtype (_task (req_generator r'))
                        = output_dtype (_task (req_generator r))) rs ->
      serve_all (r :: rs) dp = serve r dp).
Proof.
  split; [apply serve_eq|]. split.
  - apply serve_all_not_train.
  - intros Hrs. simpl. rewrite serve_eq.
    destruct (String.eqb (stage dp) "train") eqn:E.
    + apply serve_all_same_dtype, Hrs.
    + apply serve_all_not_train. intros Hs.
      apply String.eqb_eq in Hs. congruence.
Qed.

Lemma label_cast_runs_on_every_train_request_witness :
  serve_all [ ranking_request; ranking_request; ranking_request ] doc_pack
  = serve ranking_request doc_pack.
Proof.
  apply (label_cast_runs_on_every_train_request
           ranking_request [ranking_request; ranking_request] doc_pack).
  repeat constructor.
Defined.

(** C7 as stated fails: after a first train-stage draw under a Ranking
    task, a draw under a Classification task casts the label column
    again and changes the relation table. *)
Lemma later_request_modifies_relation :
  stage doc_pack = "train"
  /\ relation (serve_all [ranking_request; classification_request] doc_pack)
     <> relation (serve_all [ranking_request] doc_pack).
Proof. split; [reflexivity|]. vm_compute. discriminate. Qed.

(** ** One-hot labels *)

Lemma setitem2_ok (m m' : list (list Q)) (idx : nat) (lab : cell) :
  setitem2 m idx lab = Ok m' ->
  exists row z,
    m !! idx = Some row /\ lab = CInt z
    /\ - Z.of_nat (length row) <= z < Z.of_nat (length row)
    /\ m' = <[idx := <[Z.to_nat (if z <? 0 then z + Z.of_nat (length row) else z)
                       := 1%Q]> row]> m.
Proof.
  unfold setitem2.
  destruct (m !! idx) as [row|]; [|discriminate].
  destruct lab as [z|q]; [|discriminate].
  destruct (z <? 0) eqn:Hneg;
    destruct (_ && _) eqn:Hrange; try discriminate;
    intros [= <-]; exists row, z; rewrite Hneg; repeat split; lia.
Qed.

Lemma setitem2_raise (m : list (list Q)) (idx : nat) (lab : cell) (e : exn) :
  setitem2 m idx lab = Raise e -> e = IndexError.
Proof.
  unfold setitem2.
  destruct (m !! idx) as [row|]; [|congruence].
  destruct lab as [z|q]; [|congruence].
  destruct (_ && _); congruence.
Qed.

Lemma fill_one_hot_ok (labs : list cell) :
  forall (m m' : list (list Q)) (idx : nat),
  fill_one_hot m idx labs = Ok m' ->
  length m' = length m
  /\ (forall j, (j < idx \/ idx + length labs <= j)%nat -> m' !! j = m !! j)
  /\ (forall k lab, labs !! k = Some lab ->
        exists row z,
          m !! (idx + k)%nat = Some row /\ lab = CInt z
          /\ - Z.of_nat (length row) <= z < Z.of_nat (length row)
          /\ m' !! (idx + k)%nat
             = Some (<[Z.to_nat (if z <? 0 then z + Z.of_nat (length row) else z)
                       := 1%Q]> row)).
Proof.
  induction labs as [|lab labs IH]; intros m m' idx Hrun; simpl in Hrun.
  - injection Hrun as <-.
    split; [reflexivity|]. split; [reflexivity|].
    intros k lab Hk. discriminate.
  - apply rbind_ok in Hrun as (m1 & Hset & Hrun).
    apply setitem2_ok in Hset as (row & z & Hrow & -> & Hz & ->).
    apply IH in Hrun as (Hlen & Hout & Hin).
    rewrite length_insert in Hlen.
    split; [exact Hlen|]. split.
    + intros j Hj. simpl in Hj.
      rewrite Hout by lia. apply list_lookup_insert_ne. lia.
    + intros [|k] lab' Hk; simpl in Hk.
      * injection Hk as <-. exists row, z.
        rewrite Nat.add_0_r. repeat split; try lia; [exact Hrow|].
        rewrite Hout by lia.
        apply list_lookup_insert_eq. eapply lookup_lt_Some, Hrow.
      * destruct (Hin k lab' Hk) as (row' & z' & Hrow' & -> & Hz' & Hm').
        exists row', z'.
        replace (idx + S k)%nat with (S idx + k)%nat by lia.
        repeat split; try lia; [|exact Hm'].
        rewrite list_lookup_insert_ne in Hrow' by lia. exact Hrow'.
Qed.

Lemma fill_one_hot_raise (n : nat) (labs : list cell) :
  forall (m : list (list Q)) (idx : nat),
  Forall (fun row => length row = n) m ->
  Exists (fun lab => ~ accepted_index n lab) labs ->
  fill_one_hot m idx labs = Raise IndexError.
Proof.
  induction labs as [|lab labs IH]; intros m idx Hwidth Hbad.
  - inversion Hbad.
  - simpl. destruct (setitem2 m idx lab) as [m1|e] eqn:Hset; simpl.
    + apply setitem2_ok in Hset as (row & z & Hrow & -> & Hz & ->).
      assert (Hn : length row = n).
      { eapply Forall_lookup_1 in Hwidth; [exact Hwidth | exact Hrow]. }
      apply IH.
      * apply Forall_insert; [exact Hwidth|].
        rewrite length_insert. exact Hn.
      * apply Exists_cons in Hbad as [Hbad|Hbad]; [|exact Hbad].
        exfalso. apply Hbad. simpl. lia.
    + apply setitem2_raise in Hset. congruence.
Qed.

Lemma row_sum_cons (x : Q) (row : list Q) :
  row_sum (x :: row) = Qplus x (row_sum row).
Proof. reflexivity. Qed.

Lemma row_sum_zeros (n : nat) : row_sum (replicate n 0%Q) = 0%Q.
Proof.
  induction n as [|n IH]; [reflexivity|].
  change (replicate (S n) 0%Q) with (0%Q :: replicate n 0%Q).
  rewrite row_sum_cons, IH. reflexivity.
Qed.

Lemma row_sum_one_hot (n k : nat) :
  (k < n)%nat -> row_sum (one_hot n k) = 1%Q.
Proof.
  unfold one_hot. revert k.
  induction n as [|n IH]; intros k Hk; [lia|].
  change (replicate (S n) 0%Q) with (0%Q :: replicate n 0%Q).
  destruct k as [|k].
  - change (<[0%nat := 1%Q]> (0%Q :: replicate n 0%Q))
      with (1%Q :: replicate n 0%Q).
    rewrite row_sum_cons, row_sum_zeros. reflexivity.
  - change (<[S k := 1%Q]> (0%Q :: replicate n 0%Q))
      with (0%Q :: <[k := 1%Q]> (replicate n 0%Q)).
    rewrite row_sum_cons, IH by lia. reflexivity.
Qed.

Lemma one_hot_entries (n k : nat) :
  Forall (fun x => x = 0%Q \/ x = 1%Q) (one_hot n k).
Proof.
  unfold one_hot. apply Forall_lookup_2. intros j x Hx.
  destruct (decide (k = j)) as [->|Hne].
  - destruct (decide (j < length (replicate n 0%Q))%nat) as [Hlt|Hge].
    + rewrite list_lookup_insert_eq in Hx by exact Hlt.
      injection Hx as <-. right; reflexivity.
    + rewrite list_insert_ge in Hx by lia.
      apply lookup_replicate in Hx as [-> _]. left; reflexivity.
  - rewrite list_lookup_insert_ne in Hx by exact Hne.
    apply lookup_replicate in Hx as [-> _]. left; reflexivity.
Qed.

Lemma length_one_hot (n k : nat) : length (one_hot n k) = n.
Proof. unfold one_hot. rewrite length_insert. apply length_replicate. Qed.

Lemma zeros_lookup (n_rows n_cols k : nat) (row : list Q) :
  zeros n_rows n_cols !! k = Some row -> row = replicate n_cols 0%Q.
Proof. unfold zeros. intros Hk. apply lookup_replicate in Hk as [-> _]. reflexivity. Qed.

Lemma zeros_width (n_rows n_cols : nat) :
  Forall (fun row => length row = n_cols) (zeros n_rows n_cols).
Proof.
  apply Forall_lookup_2. intros k row Hk.
  apply zeros_lookup in Hk as ->. apply length_replicate.
Qed.

Lemma traverse_getitem_in_range {A} (xs : list A) (index_array : list Z) :
  Forall (fun i => 0 <= i < Z.of_nat (length xs)) index_array ->
  exists ys, traverse (getitem xs) index_array = Ok ys.
Proof.
  induction 1 as [|i idx Hi _ [ys IH]]; simpl.
  - exists []. reflexivity.
  - destruct (getitem_in_range xs i Hi) as [y Hy].
    exists (y :: ys). rewrite Hy; simpl. rewrite IH. reflexivity.
Qed.

Lemma Forall2_Exists_r {A B} (P : A -> B -> Prop) (Q : A -> Prop)
    (R : B -> Prop) (l : list A) (k : list B) :
  (forall x y, P x y -> Q x -> R y) ->
  Forall2 P l k -> Exists Q l -> Exists R k.
Proof.
  intros HPQ HF. induction HF as [|x y l k Hxy _ IH]; intros HE.
  - inversion HE.
  - apply Exists_cons in HE as [HE|HE].
    + apply Exists_cons_hd. eauto.
    + apply Exists_cons_tl. auto.
Qed.

(** C2. A train-stage batch under a Classification task with
    [num_classes] classes, all of whose (cast) labels are class indices
    of [0 .. num_classes-1], returns as labels a matrix with one row per
    entry of the index array and [num_classes] columns; the row of a
    position is zero except for a single 1 at the column of that
    position's label, so it sums to 1 and holds only 0 and 1. *)
Theorem classification_labels_are_one_hot
    (self : PointGenerator) (index_array : list Z) (dp dp' : DataPack)
    (batch_x : gmap string (list value)) (batch_y : labels)
    (num_classes : nat) :
  stage dp = "train" ->
  task_kind (_task self) = Classification num_classes ->
  _get_batch_of_transformed_samples self index_array dp
    = (Ok (batch_x, batch_y), dp') ->
  Forall (fun i => forall c, label_column dp' !! Z.to_nat i = Some c ->
                             valid_class_index num_classes c) index_array ->
  exists m,
    batch_y = LMatrix m
    /\ length m = length index_array
    /\ Forall2 (fun i row =>
                  exists z, label_column dp' !! Z.to_nat i = Some (CInt z)
                            /\ 0 <= z < Z.of_nat num_classes
                            /\ row = one_hot num_classes (Z.to_nat z))
               index_array m
    /\ Forall (fun row => length row = num_classes
                          /\ row_sum row = 1%Q
                          /\ Forall (fun x => x = 0%Q \/ x = 1%Q) row) m.
Proof.
  intros Hstage Hkind Hrun Hvalid.
  rewrite get_batch_eq, Hstage in Hrun; simpl in Hrun.
  unfold encode_labels in Hrun. rewrite Hkind in Hrun.
  destruct (traverse _ index_array) as [labs|e] eqn:Hlabs; simpl in Hrun;
    [|discriminate].
  destruct (fill_one_hot _ 0 labs) as [m|e] eqn:Hfill; simpl in Hrun;
    [|discriminate].
  destruct (features_of _ _) as [bx|e]; simpl in Hrun; [|discriminate].
  injection Hrun as <- <- <-.
  apply traverse_ok_Forall2 in Hlabs.
  apply fill_one_hot_ok in Hfill as (Hlen & _ & Hin).
  unfold zeros in Hlen. rewrite length_replicate in Hlen.
  assert (Hrows : Forall2 (fun i row =>
            exists z, label_column (cast_labels (output_dtype (_task self)) dp)
                        !! Z.to_nat i = Some (CInt z)
                      /\ 0 <= z < Z.of_nat num_classes
                      /\ row = one_hot num_classes (Z.to_nat z))
            index_array m).
  { apply Forall2_same_length_lookup_2; [lia|].
    intros k i row Hi Hrow.
    destruct (Forall2_lookup_l _ _ _ _ _ Hlabs Hi) as (lab & Hlab & Hget).
    apply getitem_ok in Hget as [_ Hget].
    destruct (Hin k lab Hlab) as (row0 & z & Hrow0 & -> & _ & Hm).
    simpl in Hrow0, Hm. apply zeros_lookup in Hrow0 as ->.
    rewrite Hrow in Hm. injection Hm as ->.
    eapply Forall_lookup_1 in Hvalid; [|exact Hi].
    specialize (Hvalid _ Hget). simpl in Hvalid.
    exists z. split; [exact Hget|]. split; [exact Hvalid|].
    replace (z <? 0) with false by (symmetry; apply Z.ltb_ge; lia).
    reflexivity. }
  exists m. split; [reflexivity|]. split; [lia|]. split; [exact Hrows|].
  apply Forall_lookup_2. intros k row Hrow.
  destruct (Forall2_lookup_r _ _ _ _ _ Hrows Hrow) as (i & _ & z & _ & Hz & ->).
  split; [apply length_one_hot|]. split; [|apply one_hot_entries].
  apply row_sum_one_hot. lia.
Qed.

Lemma classification_labels_are_one_hot_witness :
  exists m,
    LMatrix [[0%Q; 1%Q]] = LMatrix m
    /\ length m = length [0]
    /\ Forall2 (fun i row =>
                  exists z, label_column doc_pack !! Z.to_nat i = Some (CInt z)
                            /\ 0 <= z < Z.of_nat 2
                            /\ row = one_hot 2 (Z.to_nat z))
               [0] m
    /\ Forall (fun row => length row = 2%nat
                          /\ row_sum row = 1%Q
                          /\ Forall (fun x => x = 0%Q \/ x = 1%Q) row) m.
Proof.
  apply (classification_labels_are_one_hot
           (point_generator (classification 2) 1) [0] doc_pack doc_pack
           doc_features (LMatrix [[0%Q; 1%Q]]) 2).
  - reflexivity.
  - reflexivity.
  - vm_compute. reflexivity.
  - apply Forall_cons. split; [|apply Forall_nil; exact I].
    intros c Hc. injection Hc as <-. simpl. lia.
Defined.

(** C3, as the code has it.  In a train-stage batch under a
    Classification task whose index array lies within the relation
    table, a (cast) label that the array subscript does not accept, an
    integer outside [-num_classes .. num_classes-1] or a float, makes
    batch assembly raise [IndexError], after the label column was cast. *)
Theorem unaccepted_label_raises_index_error
    (self : PointGenerator) (index_array : list Z) (dp : DataPack)
    (num_classes : nat) :
  stage dp = "train" ->
  task_kind (_task self) = Classification num_classes ->
  Forall (fun i => 0 <= i < Z.of_nat (length (relation dp))) index_array ->
  Exists (fun i => exists r,
            relation dp !! Z.to_nat i = Some r
            /\ ~ accepted_index num_classes
                   (astype (output_dtype (_task self)) (label r)))
         index_array ->
  _get_batch_of_transformed_samples self index_array dp
    = (Raise IndexError, cast_labels (output_dtype (_task self)) dp).
Proof.
  intros Hstage Hkind Hrange Hbad.
  rewrite get_batch_eq, Hstage; simpl.
  unfold encode_labels. rewrite Hkind.
  destruct (traverse_getitem_in_range
              (label_column (cast_labels (output_dtype (_task self)) dp))
              index_array) as [labs Hlabs].
  { unfold label_column, cast_labels; simpl. rewrite !length_map. exact Hrange. }
  rewrite Hlabs; simpl.
  rewrite (fill_one_hot_raise num_classes); [reflexivity|apply zeros_width|].
  apply traverse_ok_Forall2 in Hlabs.
  eapply Forall2_Exists_r; [|exact Hlabs|exact Hbad].
  intros i lab Hget (r & Hr & Hnot). simpl in Hnot.
  apply getitem_ok in Hget as [_ Hget].
  rewrite label_column_cast in Hget. unfold label_column in Hget.
  rewrite !list_lookup_fmap, Hr in Hget. simpl in Hget.
  injection Hget as <-. exact Hnot.
Qed.

Lemma unaccepted_label_raises_index_error_witness :
  _get_batch_of_transformed_samples
    (point_generator (classification 2) 1) [0] doc_pack_label_2
  = (Raise IndexError, cast_labels DInt doc_pack_label_2).
Proof.
  apply (unaccepted_label_raises_index_error
           (point_generator (classification 2) 1) [0] doc_pack_label_2 2).
  - reflexivity.
  - reflexivity.
  - repeat constructor; simpl; lia.
  - apply Exists_cons_hd.
    exists {| id_left := "qid0"; id_right := "did0"; label := CInt 2 |}.
    split; [reflexivity|]. simpl. lia.
Defined.

(** C3 as stated fails: the label -1 is outside [0 .. 1], and batch
    assembly under Classification(2) returns the one-hot row of the
    last class for it. *)
Lemma negative_label_is_served :
  ~ valid_class_index 2 (CInt (-1))
  /\ _get_batch_of_transformed_samples
       (point_generator (classification 2) 1) [0] doc_pack_label_minus_1
     = (Ok (doc_features, LMatrix [[0%Q; 1%Q]]), doc_pack_label_minus_1).
Proof. split; [simpl; lia|]. vm_compute. reflexivity. Qed.

(** ** The feature dictionary *)

Lemma dom_fromkeys {A} (keys : list string) (v : A) :
  dom (fromkeys keys v) = list_to_set keys.
Proof.
  induction keys as [|k keys IH]; simpl.
  - apply dom_empty_L.
  - rewrite dom_insert_L, IH. reflexivity.
Qed.

Lemma loc_ok (t : table) (ids : list string) (column : string) (v : list value) :
  loc t ids column = Ok v ->
  Forall2 (fun id x => rows t !! id ≫= (.!! column) = Some x) ids v.
Proof.
  intros Hv. apply traverse_ok_Forall2 in Hv.
  eapply Forall2_impl; [exact Hv|].
  intros id x Hx. simpl in Hx.
  destruct (rows t !! id ≫= (.!! column)); [congruence | discriminate].
Qed.

Lemma gather_columns_ok (t : table) (ids : list string) (cols : list string) :
  forall batch_x batch_x' : gmap string (list value),
  gather_columns t ids cols batch_x = Ok batch_x' ->
  dom batch_x' = dom batch_x ∪ list_to_set cols
  /\ (forall k, k ∈ cols ->
        exists v, batch_x' !! k = Some v /\ loc t ids k = Ok v)
  /\ (forall k, k ∉ cols -> batch_x' !! k = batch_x !! k).
Proof.
  induction cols as [|c cols IH]; intros bx bx' Hrun; simpl in Hrun.
  - injection Hrun as <-. split; [set_solver|].
    split; [intros k Hk; inversion Hk | reflexivity].
  - apply rbind_ok in Hrun as (v & Hv & Hrun).
    apply IH in Hrun as (Hdom & Hin & Hout).
    split; [rewrite Hdom, dom_insert_L; set_solver|]. split.
    + intros k Hk.
      destruct (decide (k ∈ cols)) as [Hcols|Hcols]; [auto|].
      apply elem_of_cons in Hk as [->|Hk]; [|contradiction].
      exists v. split; [|exact Hv].
      rewrite Hout by exact Hcols. apply lookup_insert_eq.
    + intros k Hk. apply not_elem_of_cons in Hk as [Hne Hk].
      rewrite Hout by exact Hk. apply lookup_insert_ne. congruence.
Qed.

Lemma iloc_column_length (f : relation_row -> string) (rel : list relation_row)
    (index_array : list Z) (ids : list string) :
  iloc_column f rel index_array = Ok ids -> length ids = length index_array.
Proof. apply traverse_ok_length. Qed.

Lemma iloc_map {A B} (g : A -> B) (xs : list A) (i : Z) :
  iloc (map g xs) i = rbind (iloc xs i) (fun x => Ok (g x)).
Proof.
  unfold iloc. rewrite length_map.
  destruct (_ && _); [|reflexivity].
  rewrite list_lookup_fmap.
  destruct (xs !! _); reflexivity.
Qed.

Lemma traverse_ext {A B} (f g : A -> result B) (xs : list A) :
  (forall x, f x = g x) -> traverse f xs = traverse g xs.
Proof.
  intros Hfg. induction xs as [|x xs IH]; simpl; [reflexivity|].
  rewrite Hfg, IH. reflexivity.
Qed.

Lemma features_of_cast (d : dtype) (dp : DataPack) (index_array : list Z) :
  features_of (cast_labels d dp) index_array = features_of dp index_array.
Proof.
  unfold features_of, iloc_column, cast_labels; simpl.
  assert (Hl : traverse (fun i =>
            rbind (iloc (map (fun r => {| id_left := id_left r;
                                          id_right := id_right r;
                                          label := astype d (label r) |})
                             (relation dp)) i)
                  (fun r => Ok (id_left r))) index_array
          = traverse (fun i => rbind (iloc (relation dp) i)
                                     (fun r => Ok (id_left r))) index_array).
  { apply traverse_ext. intros i. rewrite iloc_map.
    destruct (iloc (relation dp) i); reflexivity. }
  assert (Hr : traverse (fun i =>
            rbind (iloc (map (fun r => {| id_left := id_left r;
                                          id_right := id_right r;
                                          label := astype d (label r) |})
                             (relation dp)) i)
                  (fun r => Ok (id_right r))) index_array
          = traverse (fun i => rbind (iloc (relation dp) i)
                                     (fun r => Ok (id_right r))) index_array).
  { apply traverse_ext. intros i. rewrite iloc_map.
    destruct (iloc (relation dp) i); reflexivity. }
  rewrite Hl, Hr. reflexivity.
Qed.

Lemma get_batch_ok_features (self : PointGenerator) (index_array : list Z)
    (dp dp' : DataPack) (batch_x : gmap string (list value)) (batch_y : labels) :
  _get_batch_of_transformed_samples self index_array dp
    = (Ok (batch_x, batch_y), dp') ->
  features_of dp index_array = Ok batch_x.
Proof.
  rewrite get_batch_eq.
  destruct (String.eqb (stage dp) "train"); simpl.
  - destruct (encode_labels _ _ _); [|discriminate].
    rewrite features_of_cast.
    destruct (features_of dp index_array); simpl; congruence.
  - destruct (features_of dp index_array); simpl; congruence.
Qed.

(** C5. Every batch the point generator returns has a feature
    dictionary whose key set is the left table's columns, the right
    table's columns, [id_left] and [id_right], and nothing else; every
    key holds one entry per position of the index array.  The entries of
    a table column are the cells found by looking the relation's id up
    in that table, and [id_left], [id_right] hold the ids themselves; a
    name two sources share holds the one assigned last (right columns,
    then [id_right], then left columns, then [id_left]). *)
Theorem feature_keys_are_the_columns
    (self : PointGenerator) (index_array : list Z) (dp dp' : DataPack)
    (batch_x : gmap string (list value)) (batch_y : labels) :
  _get_batch_of_transformed_samples self index_array dp
    = (Ok (batch_x, batch_y), dp') ->
  dom batch_x
    = list_to_set (columns (left dp) ++ columns (right dp)
                   ++ ["id_left"; "id_right"])%list
  /\ (forall k v, batch_x !! k = Some v -> length v = length index_array)
  /\ exists ids_left ids_right,
       iloc_column id_left (relation dp) index_array = Ok ids_left
       /\ iloc_column id_right (relation dp) index_array = Ok ids_right
       /\ (forall c, c ∈ columns (right dp) ->
             exists v, batch_x !! c = Some v
               /\ Forall2 (fun id x => rows (right dp) !! id ≫= (.!! c) = Some x)
                          ids_right v)
       /\ (forall c, c ∈ columns (left dp) -> c ∉ columns (right dp) ->
             c <> "id_right" ->
             exists v, batch_x !! c = Some v
               /\ Forall2 (fun id x => rows (left dp) !! id ≫= (.!! c) = Some x)
                          ids_left v)
       /\ ("id_right" ∉ columns (right dp) ->
             batch_x !! "id_right" = Some (map VStr ids_right))
       /\ ("id_left" ∉ columns (left dp) -> "id_left" ∉ columns (right dp) ->
             batch_x !! "id_left" = Some (map VStr ids_left)).
Proof.
  intros Hrun. apply get_batch_ok_features in Hrun.
  unfold features_of in Hrun.
  apply rbind_ok in Hrun as (ids_l & Hl & Hrun).
  apply rbind_ok in Hrun as (bx1 & Hg1 & Hrun).
  apply rbind_ok in Hrun as (ids_r & Hr & Hg2).
  apply gather_columns_ok in Hg1 as (Hdom1 & Hin1 & Hout1).
  apply gather_columns_ok in Hg2 as (Hdom2 & Hin2 & Hout2).
  pose proof (iloc_column_length _ _ _ _ Hl) as Hlen_l.
  pose proof (iloc_column_length _ _ _ _ Hr) as Hlen_r.
  rewrite dom_insert_L, dom_fromkeys in Hdom1.
  rewrite dom_insert_L, Hdom1 in Hdom2.
  split; [rewrite Hdom2, !list_to_set_app_L; set_solver|].
  split.
  - intros k v Hk.
    destruct (decide (k ∈ columns (right dp))) as [HR|HR].
    { destruct (Hin2 k HR) as (v' & Hv' & Hloc).
      rewrite Hk in Hv'. injection Hv' as <-.
      apply traverse_ok_length in Hloc. lia. }
    rewrite Hout2 in Hk by exact HR.
    destruct (decide (k = "id_right")) as [->|Hne_r].
    { rewrite lookup_insert_eq in Hk. injection Hk as <-.
      rewrite length_map. exact Hlen_r. }
    rewrite lookup_insert_ne in Hk by congruence.
    destruct (decide (k ∈ columns (left dp))) as [HL|HL].
    { destruct (Hin1 k HL) as (v' & Hv' & Hloc).
      rewrite Hk in Hv'. injection Hv' as <-.
      apply traverse_ok_length in Hloc. lia. }
    rewrite Hout1 in Hk by exact HL.
    destruct (decide (k = "id_left")) as [->|Hne_l].
    { rewrite lookup_insert_eq in Hk. injection Hk as <-.
      rewrite length_map. exact Hlen_l. }
    rewrite lookup_insert_ne in Hk by congruence.
    assert (Hin : k ∈ dom (fromkeys (columns (left dp) ++ columns (right dp)
                                      ++ ["id_left"; "id_right"])%list
                                    ([] : list value))).
    { apply elem_of_dom. eauto. }
    rewrite dom_fromkeys, !list_to_set_app_L in Hin. set_solver.
  - exists ids_l, ids_r. split; [exact Hl|]. split; [exact Hr|].
    split; [|split; [|split]].
    + intros c HR. destruct (Hin2 c HR) as (v & Hv & Hloc).
      exists v. split; [exact Hv | apply loc_ok, Hloc].
    + intros c HL HR Hne. destruct (Hin1 c HL) as (v & Hv & Hloc).
      exists v. split; [|apply loc_ok, Hloc].
      rewrite Hout2 by exact HR. rewrite lookup_insert_ne by congruence.
      exact Hv.
    + intros HR. rewrite Hout2 by exact HR. apply lookup_insert_eq.
    + intros HL HR. rewrite Hout2 by exact HR.
      rewrite lookup_insert_ne by discriminate.
      rewrite Hout1 by exact HL. apply lookup_insert_eq.
Qed.

Lemma feature_keys_are_the_columns_witness :
  dom doc_features
    = list_to_set (columns (left doc_pack) ++ columns (right doc_pack)
                   ++ ["id_left"; "id_right"])%list
  /\ (forall k v, doc_features !! k = Some v -> length v = length [0]).
Proof.
  destruct (feature_keys_are_the_columns
              (point_generator (classification 2) 1) [0] doc_pack doc_pack
              doc_features (LMatrix [[0%Q; 1%Q]]))
    as (Hdom & Hlen & _).
  - vm_compute. reflexivity.
  - split; [exact Hdom | exact Hlen].
Defined.

(** ** Constructing the generator *)

Lemma bind_positional_dom (params : list (string * option pyval)) :
  forall (args : list pyval) (env : gmap string pyval),
  bind_positional params args = Ok env ->
  dom env ⊆ list_to_set (map fst params).
Proof.
  induction params as [|[name d] params IH]; intros args env Hrun;
    destruct args as [|a args]; simpl in Hrun; try discriminate.
  - injection Hrun as <-. set_solver.
  - injection Hrun as <-. set_solver.
  - apply rbind_ok in Hrun as (env' & Henv' & Hrun).
    injection Hrun as <-. apply IH in Henv'.
    rewrite dom_insert. simpl. set_solver.
Qed.

Lemma bind_keywords_dom (params : list (string * option pyval))
    (kwargs : list (string * pyval)) :
  forall env env' : gmap string pyval,
  bind_keywords params kwargs env = Ok env' ->
  dom env ⊆ list_to_set (map fst params) ->
  dom env' ⊆ list_to_set (map fst params).
Proof.
  induction kwargs as [|[name v] kwargs IH]; intros env env' Hrun Hdom;
    simpl in Hrun.
  - injection Hrun as <-. exact Hdom.
  - destruct (bool_decide (name ∈ map fst params)) eqn:Hname; [|discriminate].
    apply bool_decide_eq_true in Hname.
    destruct (env !! name); [discriminate|].
    eapply IH; [exact Hrun|].
    rewrite dom_insert. set_solver.
Qed.

Lemma bind_defaults_dom (params : list (string * option pyval)) :
  forall env env' : gmap string pyval,
  bind_defaults params env = Ok env' ->
  dom env' ⊆ dom env ∪ list_to_set (map fst params).
Proof.
  induction params as [|[name d] params IH]; intros env env' Hrun;
    simpl in Hrun.
  - injection Hrun as <-. set_solver.
  - destruct (env !! name) as [v|].
    + apply IH in Hrun. simpl. set_solver.
    + destruct d as [d|]; [|discriminate].
      apply IH in Hrun. rewrite dom_insert in Hrun. simpl. set_solver.
Qed.

Lemma bind_arguments_dom (params : list (string * option pyval))
    (args : list pyval) (kwargs : list (string * pyval))
    (env : gmap string pyval) :
  bind_arguments params args kwargs = Ok env ->
  dom env ⊆ list_to_set (map fst params).
Proof.
  unfold bind_arguments. intros Hrun.
  apply rbind_ok in Hrun as (env1 & H1 & Hrun).
  apply rbind_ok in Hrun as (env2 & H2 & H3).
  apply bind_positional_dom in H1.
  eapply bind_keywords_dom in H2; [|exact H1].
  apply bind_defaults_dom in H3. set_solver.
Qed.

Lemma stage_is_not_a_parameter (args : list pyval)
    (kwargs : list (string * pyval)) (env : gmap string pyval) :
  bind_arguments init_params args kwargs = Ok env ->
  load_name env "stage" = Raise (NameError "stage").
Proof.
  intros Hrun. apply bind_arguments_dom in Hrun.
  unfold load_name.
  destruct (env !! "stage") as [v|] eqn:Hstage; [|reflexivity].
  exfalso.
  assert (Hin : "stage" ∈ dom env) by (apply elem_of_dom; eauto).
  apply Hrun in Hin. simpl in Hin. set_solver.
Qed.

(** C1, against the code.  [__init__] has no [stage] parameter, yet its
    body reads the name [stage]: no call of the constructor returns.
    The call with four arguments stops with [NameError] on [stage]; the
    call of the class docstring, which also passes the stage, stops with
    [TypeError] at argument binding. *)
Theorem PointGenerator_new_always_raises :
  (forall args kwargs, exists e, PointGenerator_new args kwargs = Raise e)
  /\ (forall dp t b sh,
        PointGenerator_new [PPack dp; PTask t; PInt b; PBool sh] []
        = Raise (NameError "stage"))
  /\ (forall dp t b st sh,
        PointGenerator_new [PPack dp; PTask t; PInt b; PStr st; PBool sh] []
        = Raise (TypeError "too many positional arguments")).
Proof.
  split; [|split].
  - intros args kwargs. unfold PointGenerator_new.
    destruct (bind_arguments init_params args kwargs) as [env|e] eqn:Hbind;
      simpl; [|eauto].
    apply stage_is_not_a_parameter in Hbind.
    unfold PointGenerator__init__. rewrite Hbind.
    destruct (load_name env "datapack") as [d|e]; simpl; [|eauto].
    destruct (load_name env "task") as [t|e]; simpl; [|eauto].
    destruct (load_name env "batch_size") as [b|e]; simpl; [|eauto].
    destruct (len_relation d) as [n|e]; simpl; eauto.
  - intros dp t b sh. reflexivity.
  - intros dp t b st sh. reflexivity.
Qed.

(** ** Abstract methods of the preprocessor *)

Lemma inherited_method_is_abstract (c : pyclass) (name : string) :
  name = "fit" \/ name = "transform" ->
  namespace c !! name = None ->
  is_abstract c name = true
  /\ exists m, getattr c name = Some m
               /\ forall self inputs, body m self inputs = Ok PNone.
Proof.
  intros Hname Hmissing. unfold is_abstract, getattr. rewrite Hmissing.
  destruct Hname as [-> | ->].
  - split; [reflexivity|]. exists BasePreprocessor_fit.
    split; reflexivity.
  - split; [reflexivity|]. exists BasePreprocessor_transform.
    split; reflexivity.
Qed.

Lemma abstractmethods_inherited (c : pyclass) (name : string) :
  name = "fit" \/ name = "transform" ->
  namespace c !! name = None ->
  name ∈ abstractmethods c.
Proof.
  intros Hname Hmissing. unfold abstractmethods.
  apply elem_of_app. right. apply list_elem_of_filter. split.
  - apply inherited_method_is_abstract; assumption.
  - destruct Hname as [-> | ->]; set_solver.
Qed.

(** C9, as the code has it.  A subclass of the base preprocessor that
    does not define [fit], or does not define [transform], cannot be
    instantiated: the attempt raises [TypeError], so the usual call of
    the missing operation on a new object fails before the operation is
    reached.  The inherited function itself, when called through the
    class, runs its empty body and returns [None]. *)
Theorem missing_abstract_method_blocks_instantiation
    (c : pyclass) (name : string) :
  name = "fit" \/ name = "transform" ->
  namespace c !! name = None ->
  instantiate c
    = Raise (TypeError ("Can't instantiate abstract class " +:+ cls_name c))
  /\ (forall inputs,
        instantiate_and_call c name inputs
        = Raise (TypeError ("Can't instantiate abstract class " +:+ cls_name c)))
  /\ (forall self inputs, invoke c name self inputs = Ok PNone).
Proof.
  intros Hname Hmissing.
  pose proof (abstractmethods_inherited c name Hname Hmissing) as Hin.
  assert (Hinst : instantiate c
            = Raise (TypeError ("Can't instantiate abstract class "
                                +:+ cls_name c))).
  { unfold instantiate.
    destruct (abstractmethods c) as [|a l]; [inversion Hin | reflexivity]. }
  split; [exact Hinst|]. split.
  - intros inputs. unfold instantiate_and_call. rewrite Hinst. reflexivity.
  - intros self inputs. unfold invoke.
    destruct (inherited_method_is_abstract c name Hname Hmissing)
      as (_ & m & -> & Hbody).
    apply Hbody.
Qed.

Lemma missing_abstract_method_blocks_instantiation_witness :
  instantiate incomplete_class
    = Raise (TypeError ("Can't instantiate abstract class "
                        +:+ cls_name incomplete_class))
  /\ (forall inputs,
        instantiate_and_call incomplete_class "fit" inputs
        = Raise (TypeError ("Can't instantiate abstract class "
                            +:+ cls_name incomplete_class)))
  /\ (forall self inputs, invoke incomplete_class "fit" self inputs = Ok PNone).
Proof.
  apply (missing_abstract_method_blocks_instantiation incomplete_class "fit").
  - left. reflexivity.
  - reflexivity.
Defined.

(** C9 as stated fails: for a subclass without [fit], no path raises a
    not-implemented condition at call time.  Calling the inherited
    function returns [None], and the call on a new object fails earlier,
    at instantiation, with [TypeError]. *)
Lemma missing_fit_is_not_a_not_implemented_error :
  namespace incomplete_class !! "fit" = None
  /\ invoke incomplete_class "fit" fitted [] = Ok PNone
  /\ invoke incomplete_class "fit" fitted [] <> Raise NotImplementedError
  /\ instantiate_and_call incomplete_class "fit" [] <> Raise NotImplementedError.
Proof.
  split; [reflexivity|]. split; [reflexivity|].
  split; [discriminate|]. vm_compute. discriminate.
Qed.

(** A subclass that defines both operations is instantiated, with an
    empty context. *)
Lemma complete_class_instantiates :
  instantiate complete_class
  = Ok {| class_name := "Complete"; _context := ∅ |}.
Proof. vm_compute. reflexivity. Qed.

(** ** Saving and loading the preprocessor *)

Section Persistence.
Context {blob : Type} `{Dill blob}.

Lemma dirname_joinpath (p : path) (name : string) :
  dirname (joinpath p name) = p.
Proof. unfold dirname, joinpath. apply removelast_last. Qed.

Lemma walk_app (n : node blob) (p q : path) :
  walk n (p ++ q)%list = rbind (walk n p) (fun m => walk m q).
Proof.
  revert n. induction p as [|x p IH]; intros n; simpl; [reflexivity|].
  destruct n as [data|entries]; [reflexivity|].
  destruct (entries !! x); [apply IH | reflexivity].
Qed.

(** Writing below a directory: the new node is found at its path, and
    the parent is still a directory. *)
Lemma put_below_dir (parent : path) (name : string) (new : node blob) :
  forall (n : node blob) (entries : gmap string (node blob)),
  walk n parent = Ok (Dir entries) ->
  exists n',
    put n (parent ++ [name])%list new = Some n'
    /\ walk n' (parent ++ [name])%list = Ok new
    /\ walk n' parent = Ok (Dir (<[name := new]> entries)).
Proof.
  induction parent as [|x ps IH]; intros n entries Hwalk; simpl in Hwalk.
  - injection Hwalk as ->. simpl.
    exists (Dir (<[name := new]> entries)).
    split; [reflexivity|]. split; [|reflexivity].
    simpl. rewrite lookup_insert_eq. reflexivity.
  - destruct n as [data|es]; [discriminate|].
    destruct (es !! x) as [child|] eqn:Hchild; [|discriminate].
    destruct (IH child entries Hwalk) as (child' & Hput & Hnew & Hparent).
    exists (Dir (<[x := child']> es)).
    assert (Hcons : exists y q, (ps ++ [name])%list = y :: q).
    { destruct ps as [|y q]; simpl; eauto. }
    destruct Hcons as (y & q & Hcons).
    split; [|split].
    + simpl. rewrite Hcons, Hchild. rewrite <- Hcons, Hput. reflexivity.
    + simpl. rewrite lookup_insert_eq. exact Hnew.
    + simpl. rewrite lookup_insert_eq. exact Hparent.
Qed.

Lemma create_below_dir (parent : path) (name : string) (new : node blob)
    (root : node blob) (entries : gmap string (node blob)) :
  walk root parent = Ok (Dir entries) ->
  exists root',
    create (joinpath parent name) new root = (Ok tt, root')
    /\ walk root' (joinpath parent name) = Ok new
    /\ walk root' parent = Ok (Dir (<[name := new]> entries)).
Proof.
  intros Hwalk. unfold create. rewrite dirname_joinpath, Hwalk.
  destruct (put_below_dir parent name new root entries Hwalk)
    as (root' & Hput & Hnew & Hparent).
  exists root'. unfold joinpath. rewrite Hput. auto.
Qed.

Lemma create_ok (p : path) (new : node blob) (root root' : node blob) :
  create p new root = (Ok tt, root') ->
  p <> [] ->
  walk root' p = Ok new.
Proof.
  intros Hrun Hp.
  destruct (exists_last Hp) as (parent & name & ->).
  fold (joinpath parent name) in Hrun |- *.
  unfold create in Hrun. rewrite dirname_joinpath in Hrun.
  destruct (walk root parent) as [[data|entries]|e] eqn:Hwalk;
    try (injection Hrun; discriminate).
  destruct (create_below_dir parent name new root entries Hwalk)
    as (root1 & Hcreate & Hnew & _).
  unfold create in Hcreate. rewrite dirname_joinpath, Hwalk in Hcreate.
  destruct (put root (joinpath parent name) new);
    [|injection Hrun; discriminate].
  injection Hrun as <-. injection Hcreate as <-. exact Hnew.
Qed.

Lemma save_eq (self : preprocessor) (dirpath : path) (root : node blob) :
  save self dirpath root =
  if path_exists root (joinpath dirpath DATA_FILENAME)
  then (Raise FileExistsError, root)
  else if negb (path_exists root dirpath)
       then match mkdir dirpath root with
            | (Ok _, root') => dump self (joinpath dirpath DATA_FILENAME) root'
            | (Raise e, root') => (Raise e, root')
            end
       else dump self (joinpath dirpath DATA_FILENAME) root.
Proof.
  unfold save, bind, get, raise, ret.
  destruct (path_exists root (joinpath dirpath DATA_FILENAME)); [reflexivity|].
  destruct (negb (path_exists root dirpath)); [|reflexivity].
  destruct (mkdir dirpath root) as [[[]|e] root']; reflexivity.
Qed.

Lemma dump_below_dir (self : preprocessor) (dirpath : path)
    (root : node blob) (entries : gmap string (node blob)) :
  walk root dirpath = Ok (Dir entries) ->
  path_exists root (joinpath dirpath DATA_FILENAME) = false ->
  exists root',
    dump self (joinpath dirpath DATA_FILENAME) root = (Ok tt, root')
    /\ walk root' (joinpath dirpath DATA_FILENAME) = Ok (File (dumps self))
    /\ is_dir root' dirpath = true.
Proof.
  intros Hdir Habsent. unfold dump.
  unfold path_exists in Habsent.
  destruct (walk root (joinpath dirpath DATA_FILENAME)) as [m|e];
    [discriminate|].
  destruct (create_below_dir dirpath DATA_FILENAME (File (dumps self))
              root entries Hdir) as (root' & Hcreate & Hnew & Hparent).
  exists root'. split; [exact Hcreate|]. split; [exact Hnew|].
  unfold is_dir. rewrite Hparent. reflexivity.
Qed.

Lemma dump_ok (self : preprocessor) (p : path) (root root' : node blob) :
  dump self p root = (Ok tt, root') ->
  p <> [] ->
  walk root' p = Ok (File (dumps self)).
Proof.
  unfold dump. intros Hrun Hp.
  destruct (walk root p) as [[data|entries]|e];
    try (eapply create_ok; [exact Hrun | exact Hp]).
  injection Hrun; discriminate.
Qed.

Lemma joinpath_not_nil (p : path) (name : string) : joinpath p name <> [].
Proof. unfold joinpath. destruct p; discriminate. Qed.

(** C8, as the code has it.  When the target file [preprocessor.dill]
    is present under the directory, [save] raises [FileExistsError] and
    the file system, so also that file, is left as it was.  When the
    target is absent and the directory exists, or is absent itself
    while its parent directory exists, [save] returns: the directory
    exists afterwards and the target file holds the serialized object.
    ([save] calls [mkdir] without [parents], so a directory under a
    missing parent is not created.) *)
Theorem save_refuses_or_writes
    (self : preprocessor) (dirpath : path) (root : node blob) :
  (path_exists root (joinpath dirpath DATA_FILENAME) = true ->
     save self dirpath root = (Raise FileExistsError, root))
  /\ (path_exists root (joinpath dirpath DATA_FILENAME) = false ->
        is_dir root dirpath = true
        \/ (path_exists root dirpath = false
            /\ is_dir root (dirname dirpath) = true) ->
        exists root',
          save self dirpath root = (Ok tt, root')
          /\ is_dir root' dirpath = true
          /\ walk root' (joinpath dirpath DATA_FILENAME)
             = Ok (File (dumps self))).
Proof.
  split.
  - intros Hpresent. rewrite save_eq, Hpresent. reflexivity.
  - intros Habsent Hdir. rewrite save_eq, Habsent.
    destruct Hdir as [Hdir | [Hmissing Hparent]].
    + unfold is_dir in Hdir.
      destruct (walk root dirpath) as [[data|entries]|e] eqn:Hwalk;
        try discriminate.
      assert (Hex : path_exists root dirpath = true).
      { unfold path_exists. rewrite Hwalk. reflexivity. }
      rewrite Hex; simpl.
      destruct (dump_below_dir self dirpath root entries Hwalk Habsent)
        as (root' & Hdump & Hfile & Hd).
      exists root'. auto.
    + rewrite Hmissing; simpl.
      assert (Hne : dirpath <> []).
      { intros ->. discriminate Hmissing. }
      destruct (exists_last Hne) as (parent & name & ->).
      fold (joinpath parent name) in *.
      rewrite dirname_joinpath in Hparent. unfold is_dir in Hparent.
      destruct (walk root parent) as [[data|entries]|e] eqn:Hwalk;
        try discriminate.
      destruct (create_below_dir parent name (Dir ∅) root entries Hwalk)
        as (root1 & Hcreate & Hnew & _).
      unfold mkdir. unfold path_exists in Hmissing.
      destruct (walk root (joinpath parent name)) as [m|e]; [discriminate|].
      rewrite Hcreate.
      destruct (dump_below_dir self (joinpath parent name) root1 ∅ Hnew)
        as (root' & Hdump & Hfile & Hd).
      { unfold path_exists, joinpath at 1. rewrite walk_app, Hnew.
        reflexivity. }
      exists root'. auto.
Qed.

(** C10. Given that [dill] reads back what it wrote for the object,
    after [save] returned for a preprocessor and a directory,
    [load_preprocessor] on that directory returns an object with the
    context the preprocessor had when it was saved (the object itself),
    and leaves the file system alone. *)
Theorem load_after_save_restores_context
    (self : preprocessor) (dirpath : path) (root root' : node blob) :
  loads (dumps self) = Some self ->
  save self dirpath root = (Ok tt, root') ->
  exists loaded,
    load_preprocessor dirpath root' = (Ok loaded, root')
    /\ context loaded = context self
    /\ loaded = self.
Proof.
  intros Hdill Hsave. rewrite save_eq in Hsave.
  assert (Hfile : walk root' (joinpath dirpath DATA_FILENAME)
                  = Ok (File (dumps self))).
  { destruct (path_exists root (joinpath dirpath DATA_FILENAME));
      [discriminate|].
    destruct (negb (path_exists root dirpath)).
    - destruct (mkdir dirpath root) as [[[]|e] root1]; [|discriminate].
      eapply dump_ok; [exact Hsave | apply joinpath_not_nil].
    - eapply dump_ok; [exact Hsave | apply joinpath_not_nil]. }
  exists self. unfold load_preprocessor, load.
  rewrite Hfile, Hdill. auto.
Qed.

End Persistence.

Lemma save_refuses_or_writes_witness :
  save (H := memory_dill) fitted ["model"] saved_root
    = (Raise FileExistsError, saved_root)
  /\ exists root',
       save (H := memory_dill) fitted ["model"] empty_root = (Ok tt, root')
       /\ is_dir root' ["model"] = true
       /\ walk root' (joinpath ["model"] DATA_FILENAME)
          = Ok (File (dumps (Dill := memory_dill) fitted)).
Proof.
  split.
  - apply (save_refuses_or_writes (H := memory_dill) fitted ["model"] saved_root).
    reflexivity.
  - apply (save_refuses_or_writes (H := memory_dill) fitted ["model"] empty_root).
    + reflexivity.
    + right. split; reflexivity.
Defined.

(** C8 as stated fails: the target is absent, the directory [a/b] is
    absent and so is its parent [a]; [save] raises [FileNotFoundError]
    and writes nothing. *)
Lemma save_under_missing_parent_raises :
  path_exists empty_root (joinpath ["a"; "b"] DATA_FILENAME) = false
  /\ save (H := memory_dill) fitted ["a"; "b"] empty_root
     = (Raise FileNotFoundError, empty_root).
Proof. split; reflexivity. Qed.

Lemma load_after_save_restores_context_witness :
  exists loaded,
    load_preprocessor (H := memory_dill) ["model"]
      (snd (save (H := memory_dill) fitted ["model"] empty_root))
    = (Ok loaded, snd (save (H := memory_dill) fitted ["model"] empty_root))
    /\ context loaded = context fitted
    /\ loaded = fitted.
Proof.
  apply (load_after_save_restores_context (H := memory_dill)
           fitted ["model"] empty_root).
  - reflexivity.
  - reflexivity.
Defined.

(** ** Batches of a well-formed pack are returned *)

Lemma traverse_returns {A B} (f : A -> result B) (P : B -> Prop) (xs : list A) :
  Forall (fun x => exists y, f x = Ok y /\ P y) xs ->
  exists ys, traverse f xs = Ok ys /\ Forall P ys.
Proof.
  induction 1 as [|x xs (y & Hy & HP) _ (ys & Hys & HPs)]; simpl.
  - exists []. split; [reflexivity | constructor].
  - exists (y :: ys). rewrite Hy; simpl. rewrite Hys; simpl.
    split; [reflexivity | constructor; assumption].
Qed.

Lemma iloc_in_range {A} (xs : list A) (i : Z) :
  - Z.of_nat (length xs) <= i < Z.of_nat (length xs) ->
  exists x, iloc xs i = Ok x /\ x ∈ xs.
Proof.
  intros Hi. unfold iloc.
  set (j := if i <? 0 then i + Z.of_nat (length xs) else i).
  assert (Hj : 0 <= j < Z.of_nat (length xs)).
  { unfold j. destruct (i <? 0) eqn:E;
      [apply Z.ltb_lt in E | apply Z.ltb_ge in E]; lia. }
  replace ((0 <=? j) && (j <? Z.of_nat (length xs))) with true
    by (symmetry; apply andb_true_iff; split;
        [apply Z.leb_le | apply Z.ltb_lt]; lia).
  destruct (lookup_lt_is_Some_2 xs (Z.to_nat j)) as [x Hx]; [lia|].
  rewrite Hx. exists x. split; [reflexivity|].
  eapply list_elem_of_lookup_2, Hx.
Qed.

Lemma gather_columns_returns (t : table) (ids : list string) (cols : list string) :
  Forall (table_has t) ids ->
  (forall c, c ∈ cols -> c ∈ columns t) ->
  forall batch_x, exists batch_x', gather_columns t ids cols batch_x = Ok batch_x'.
Proof.
  intros Hids. induction cols as [|c cols IH]; intros Hcols bx; simpl.
  - eauto.
  - assert (Hloc : exists v, loc t ids c = Ok v).
    { unfold loc.
      destruct (traverse_returns
                  (fun id => match rows t !! id ≫= (.!! c) with
                             | Some v => Ok v
                             | None => Raise KeyError
                             end) (fun _ => True) ids) as (v & Hv & _);
        [|eauto].
      eapply Forall_impl; [exact Hids|].
      intros id (row & Hrow & Hcells). rewrite Hrow; simpl.
      destruct (Hcells c) as [x Hx]; [apply Hcols; left|].
      rewrite Hx. eauto. }
    destruct Hloc as [v Hv]. rewrite Hv; simpl.
    apply IH. intros c' Hc'. apply Hcols. right. exact Hc'.
Qed.

Lemma features_of_returns (dp : DataPack) (index_array : list Z) :
  referential_integrity dp ->
  Forall (fun i => - Z.of_nat (length (relation dp)) <= i
                   < Z.of_nat (length (relation dp))) index_array ->
  exists batch_x, features_of dp index_array = Ok batch_x.
Proof.
  intros Hint Hrange. unfold features_of, iloc_column.
  destruct (traverse_returns
              (fun i => rbind (iloc (relation dp) i) (fun r => Ok (id_left r)))
              (table_has (left dp)) index_array) as (ids_l & Hl & Hids_l).
  { eapply Forall_impl; [exact Hrange|]. intros i Hi.
    destruct (iloc_in_range (relation dp) i Hi) as (r & Hr & Hin).
    rewrite Hr; simpl. exists (id_left r). split; [reflexivity|].
    unfold referential_integrity in Hint.
    rewrite Forall_forall in Hint. apply Hint, Hin. }
  destruct (traverse_returns
              (fun i => rbind (iloc (relation dp) i) (fun r => Ok (id_right r)))
              (table_has (right dp)) index_array) as (ids_r & Hr & Hids_r).
  { eapply Forall_impl; [exact Hrange|]. intros i Hi.
    destruct (iloc_in_range (relation dp) i Hi) as (r & Hr & Hin).
    rewrite Hr; simpl. exists (id_right r). split; [reflexivity|].
    unfold referential_integrity in Hint.
    rewrite Forall_forall in Hint. apply Hint, Hin. }
  rewrite Hl; simpl.
  match goal with
  | |- context [gather_columns (left dp) ids_l ?cols ?bx] =>
      destruct (gather_columns_returns (left dp) ids_l cols Hids_l
                  (fun c Hc => Hc) bx) as [bx1 Hbx1]
  end.
  rewrite Hbx1; simpl. rewrite Hr; simpl.
  apply gather_columns_returns; [exact Hids_r | auto].
Qed.

Lemma fill_one_hot_returns (n : nat) (labs : list cell) :
  forall (m : list (list Q)) (idx : nat),
  Forall (fun row => length row = n) m ->
  (idx + length labs <= length m)%nat ->
  Forall (accepted_index n) labs ->
  exists m', fill_one_hot m idx labs = Ok m'.
Proof.
  induction labs as [|lab labs IH]; intros m idx Hwidth Hlen Hacc; simpl.
  - eauto.
  - simpl in Hlen. apply Forall_cons in Hacc as [Hlab Hacc].
    destruct (lookup_lt_is_Some_2 m idx) as [row Hrow]; [lia|].
    assert (Hn : length row = n).
    { eapply Forall_lookup_1 in Hwidth; [exact Hwidth | exact Hrow]. }
    destruct lab as [z|q]; [|contradiction]. simpl in Hlab.
    unfold setitem2. rewrite Hrow, Hn.
    replace ((0 <=? (if z <? 0 then z + Z.of_nat n else z))
             && ((if z <? 0 then z + Z.of_nat n else z) <? Z.of_nat n))
      with true.
    2:{ symmetry. apply andb_true_iff.
        destruct (z <? 0) eqn:E;
          [apply Z.ltb_lt in E | apply Z.ltb_ge in E];
          split; [apply Z.leb_le | apply Z.ltb_lt
                 | apply Z.leb_le | apply Z.ltb_lt]; lia. }
    simpl. apply IH.
    + apply Forall_insert; [exact Hwidth|]. rewrite length_insert. exact Hn.
    + rewrite length_insert. lia.
    + exact Hacc.
Qed.

(** On a pack that keeps the spec's invariants, a train-stage request
    whose index array lies within the relation table returns a batch:
    under a Ranking task always, under a Classification task when the
    subscript accepts the (cast) labels of the batch rows. *)
Lemma train_batch_returns (self : PointGenerator) (index_array : list Z)
    (dp : DataPack) :
  stage dp = "train" ->
  referential_integrity dp ->
  Forall (fun i => 0 <= i < Z.of_nat (length (relation dp))) index_array ->
  (task_kind (_task self) = Ranking
   \/ exists n, task_kind (_task self) = Classification n
                /\ Forall (fun i => forall r,
                             relation dp !! Z.to_nat i = Some r ->
                             accepted_index n
                               (astype (output_dtype (_task self)) (label r)))
                          index_array) ->
  exists batch_x batch_y,
    _get_batch_of_transformed_samples self index_array dp
    = (Ok (batch_x, batch_y), cast_labels (output_dtype (_task self)) dp).
Proof.
  intros Hstage Hint Hrange Htask.
  rewrite get_batch_eq, Hstage; simpl.
  rewrite features_of_cast.
  destruct (features_of_returns dp index_array Hint) as [bx Hbx].
  { eapply Forall_impl; [exact Hrange|]. intros i Hi; simpl in Hi. lia. }
  rewrite Hbx; simpl.
  destruct (traverse_getitem_in_range
              (label_column (cast_labels (output_dtype (_task self)) dp))
              index_array) as [labs Hlabs].
  { unfold label_column, cast_labels; simpl. rewrite !length_map. exact Hrange. }
  unfold encode_labels.
  destruct Htask as [-> | (n & -> & Hacc)]; rewrite Hlabs; simpl; [eauto|].
  destruct (fill_one_hot_returns n labs (zeros (length index_array) n) 0)
    as [m Hm].
  - apply zeros_width.
  - unfold zeros. rewrite length_replicate.
    apply traverse_ok_length in Hlabs. lia.
  - apply traverse_ok_Forall2 in Hlabs.
    apply Forall_lookup_2. intros k lab Hk.
    destruct (Forall2_lookup_r _ _ _ _ _ Hlabs Hk) as (i & Hi & Hget).
    apply getitem_ok in Hget as [_ Hget].
    rewrite label_column_cast in Hget. unfold label_column in Hget.
    rewrite !list_lookup_fmap in Hget.
    destruct (relation dp !! Z.to_nat i) as [r|] eqn:Hr; [|discriminate].
    simpl in Hget. injection Hget as <-.
    eapply Forall_lookup_1 in Hacc; [|exact Hi]. apply Hacc, Hr.
  - rewrite Hm; simpl. eauto.
Qed.

(** The scenario of the class docstring: one relation row,
    Classification(2), the batch of position 0. *)
Example docstring_batch :
  _get_batch_of_transformed_samples
    (point_generator (classification 2) 1) [0] doc_pack
  = (Ok (doc_features, LMatrix [[0%Q; 1%Q]]), doc_pack).
Proof. vm_compute. reflexivity. Qed.

(** * Further properties of the point generator *)

Lemma traverse_raises {A B} (f : A -> result B) (e : exn) (xs : list A) :
  (forall x e', f x = Raise e' -> e' = e) ->
  Exists (fun x => is_ok (f x) = false) xs ->
  traverse f xs = Raise e.
Proof.
  intros Honly. induction 1 as [x xs Hx | x xs _ IH]; simpl.
  - destruct (f x) as [y|e'] eqn:Hfx; [discriminate|].
    apply Honly in Hfx as ->. reflexivity.
  - destruct (f x) as [y|e'] eqn:Hfx; simpl.
    + rewrite IH. reflexivity.
    + apply Honly in Hfx as ->. reflexivity.
Qed.

Lemma getitem_raise {A} (xs : list A) (i : Z) (e : exn) :
  getitem xs i = Raise e -> e = KeyError.
Proof.
  unfold getitem. destruct (_ && _); [|congruence].
  destruct (xs !! _); congruence.
Qed.

Lemma getitem_out_of_range {A} (xs : list A) (i : Z) :
  ~ (0 <= i < Z.of_nat (length xs)) -> is_ok (getitem xs i) = false.
Proof.
  intros Hi. destruct (getitem xs i) as [x|e] eqn:Hx; [|reflexivity].
  apply getitem_ok in Hx as [H0 Hx]. apply lookup_lt_Some in Hx. lia.
Qed.

Lemma iloc_raise {A} (xs : list A) (i : Z) (e : exn) :
  iloc xs i = Raise e -> e = IndexError.
Proof.
  unfold iloc. destruct (_ && _); [|congruence].
  destruct (xs !! _); congruence.
Qed.

Lemma iloc_out_of_range {A} (xs : list A) (i : Z) :
  ~ (- Z.of_nat (length xs) <= i < Z.of_nat (length xs)) ->
  is_ok (iloc xs i) = false.
Proof.
  intros Hi. unfold iloc.
  destruct (i <? 0) eqn:Hneg;
    [apply Z.ltb_lt in Hneg | apply Z.ltb_ge in Hneg];
    (destruct (_ && _) eqn:Hb; [|reflexivity]);
    apply andb_true_iff in Hb as [H0 H1];
    apply Z.leb_le in H0; apply Z.ltb_lt in H1; lia.
Qed.

(** A position outside the relation table stops the request.  At the
    train stage, under a Ranking or Classification task, the label
    lookup accepts the positions [0 .. n-1] only and raises [KeyError],
    the label column being cast already.  At another stage the
    positional lookup also accepts [-n .. -1]; any other position raises
    [IndexError] and the pack is not touched. *)
Theorem position_outside_relation_raises
    (self : PointGenerator) (index_array : list Z) (dp : DataPack) :
  (stage dp = "train" ->
   task_kind (_task self) <> OtherTask ->
   Exists (fun i => ~ (0 <= i < Z.of_nat (length (relation dp)))) index_array ->
   _get_batch_of_transformed_samples self index_array dp
   = (Raise KeyError, cast_labels (output_dtype (_task self)) dp))
  /\ (stage dp <> "train" ->
      Exists (fun i => ~ (- Z.of_nat (length (relation dp)) <= i
                          < Z.of_nat (length (relation dp)))) index_array ->
      _get_batch_of_transformed_samples self index_array dp
      = (Raise IndexError, dp)).
Proof.
  split.
  - intros Hstage Htask Hbad.
    rewrite get_batch_eq, Hstage; simpl.
    assert (Hlabs : traverse
              (getitem (label_column
                          (cast_labels (output_dtype (_task self)) dp)))
              index_array = Raise KeyError).
    { apply traverse_raises; [apply getitem_raise|].
      eapply Exists_impl; [exact Hbad|]. intros i Hi.
      apply getitem_out_of_range.
      unfold label_column, cast_labels; simpl. rewrite !length_map. exact Hi. }
    unfold encode_labels.
    destruct (task_kind (_task self)); [| |contradiction];
      rewrite Hlabs; reflexivity.
  - intros Hstage Hbad. rewrite get_batch_not_train by exact Hstage.
    unfold features_of, iloc_column.
    rewrite (traverse_raises _ IndexError); [reflexivity| |].
    + intros i e He.
      destruct (iloc (relation dp) i) as [r|e'] eqn:Hi; [discriminate|].
      simpl in He. injection He as <-. eapply iloc_raise, Hi.
    + eapply Exists_impl; [exact Hbad|]. intros i Hi.
      apply iloc_out_of_range in Hi.
      destruct (iloc (relation dp) i); [discriminate | reflexivity].
Qed.

Lemma position_outside_relation_raises_witness :
  _get_batch_of_transformed_samples (point_generator ranking 1) [-1] doc_pack
    = (Raise KeyError, cast_labels DFloat doc_pack)
  /\ _get_batch_of_transformed_samples
       (point_generator ranking 1) [1] doc_pack_predict
     = (Raise IndexError, doc_pack_predict).
Proof.
  split.
  - apply (position_outside_relation_raises
             (point_generator ranking 1) [-1] doc_pack).
    + reflexivity.
    + discriminate.
    + apply Exists_cons_hd. simpl. lia.
  - apply (position_outside_relation_raises
             (point_generator ranking 1) [1] doc_pack_predict).
    + discriminate.
    + apply Exists_cons_hd. simpl. lia.
Defined.

(** Every label matrix a Classification batch returns is one-hot,
    whatever the labels: the subscript accepted each (cast) label [z] of
    [-n .. n-1], and the 1 of its row sits at column [z mod n], so a
    negative label counts from the last class. *)
Theorem classification_rows_are_one_hot_modulo
    (self : PointGenerator) (index_array : list Z) (dp dp' : DataPack)
    (batch_x : gmap string (list value)) (batch_y : labels) (n : nat) :
  stage dp = "train" ->
  task_kind (_task self) = Classification n ->
  _get_batch_of_transformed_samples self index_array dp
    = (Ok (batch_x, batch_y), dp') ->
  exists m,
    batch_y = LMatrix m
    /\ Forall2 (fun i row =>
                  exists z, label_column dp' !! Z.to_nat i = Some (CInt z)
                            /\ - Z.of_nat n <= z < Z.of_nat n
                            /\ row = one_hot n (Z.to_nat (z mod Z.of_nat n)))
               index_array m
    /\ Forall (fun row => row_sum row = 1%Q) m.
Proof.
  intros Hstage Hkind Hrun.
  rewrite get_batch_eq, Hstage in Hrun; simpl in Hrun.
  unfold encode_labels in Hrun. rewrite Hkind in Hrun.
  destruct (traverse _ index_array) as [labs|e] eqn:Hlabs; simpl in Hrun;
    [|discriminate].
  destruct (fill_one_hot _ 0 labs) as [m|e] eqn:Hfill; simpl in Hrun;
    [|discriminate].
  destruct (features_of _ _) as [bx|e]; simpl in Hrun; [|discriminate].
  injection Hrun as <- <- <-.
  pose proof (traverse_ok_length _ _ _ Hlabs) as Hlen_labs.
  apply traverse_ok_Forall2 in Hlabs.
  apply fill_one_hot_ok in Hfill as (Hlen & _ & Hin).
  unfold zeros in Hlen. rewrite length_replicate in Hlen.
  assert (Hrows : Forall2 (fun i row =>
            exists z, label_column (cast_labels (output_dtype (_task self)) dp)
                        !! Z.to_nat i = Some (CInt z)
                      /\ - Z.of_nat n <= z < Z.of_nat n
                      /\ row = one_hot n (Z.to_nat (z mod Z.of_nat n)))
            index_array m).
  { apply Forall2_same_length_lookup_2; [lia|].
    intros k i row Hi Hrow.
    destruct (Forall2_lookup_l _ _ _ _ _ Hlabs Hi) as (lab & Hlab & Hget).
    apply getitem_ok in Hget as [_ Hget].
    destruct (Hin k lab Hlab) as (row0 & z & Hrow0 & -> & Hz & Hm).
    simpl in Hrow0, Hm. apply zeros_lookup in Hrow0 as ->.
    rewrite length_replicate in Hz, Hm.
    rewrite Hrow in Hm. injection Hm as ->.
    exists z. split; [exact Hget|]. split; [exact Hz|].
    unfold one_hot. f_equal. f_equal.
    destruct (z <? 0) eqn:E;
      [apply Z.ltb_lt in E | apply Z.ltb_ge in E].
    - replace z with (z + Z.of_nat n + (-1) * Z.of_nat n) at 2 by lia.
      rewrite Z_mod_plus_full. symmetry. apply Z.mod_small. lia.
    - symmetry. apply Z.mod_small. lia. }
  exists m. split; [reflexivity|]. split; [exact Hrows|].
  apply Forall_lookup_2. intros k row Hrow.
  destruct (Forall2_lookup_r _ _ _ _ _ Hrows Hrow) as (i & _ & z & _ & Hz & ->).
  apply row_sum_one_hot.
  assert (0 <= z mod Z.of_nat n < Z.of_nat n) by (apply Z.mod_pos_bound; lia).
  lia.
Qed.

Lemma classification_rows_are_one_hot_modulo_witness :
  exists m,
    LMatrix [[0%Q; 1%Q]] = LMatrix m
    /\ Forall2 (fun i row =>
                  exists z, label_column doc_pack_label_minus_1 !! Z.to_nat i
                              = Some (CInt z)
                            /\ - Z.of_nat 2 <= z < Z.of_nat 2
                            /\ row = one_hot 2 (Z.to_nat (z mod Z.of_nat 2)))
               [0] m
    /\ Forall (fun row => row_sum row = 1%Q) m.
Proof.
  apply (classification_rows_are_one_hot_modulo
           (point_generator (classification 2) 1) [0]
           doc_pack_label_minus_1 doc_pack_label_minus_1
           doc_features (LMatrix [[0%Q; 1%Q]]) 2).
  - reflexivity.
  - reflexivity.
  - vm_compute. reflexivity.
Defined.

Lemma gather_columns_no_ids (t : table) (cols : list string) :
  forall batch_x : gmap string (list value),
  exists batch_x', gather_columns t [] cols batch_x = Ok batch_x'.
Proof.
  induction cols as [|c cols IH]; intros bx; simpl; [eauto|]. apply IH.
Qed.

Lemma features_of_lengths (dp : DataPack) (index_array : list Z)
    (batch_x : gmap string (list value)) :
  features_of dp index_array = Ok batch_x ->
  dom batch_x
    = list_to_set (columns (left dp) ++ columns (right dp)
                   ++ ["id_left"; "id_right"])%list
  /\ forall k v, batch_x !! k = Some v -> length v = length index_array.
Proof.
  intros Hrun. unfold features_of in Hrun.
  apply rbind_ok in Hrun as (ids_l & Hl & Hrun).
  apply rbind_ok in Hrun as (bx1 & Hg1 & Hrun).
  apply rbind_ok in Hrun as (ids_r & Hr & Hg2).
  apply gather_columns_ok in Hg1 as (Hdom1 & Hin1 & Hout1).
  apply gather_columns_ok in Hg2 as (Hdom2 & Hin2 & Hout2).
  pose proof (iloc_column_length _ _ _ _ Hl) as Hlen_l.
  pose proof (iloc_column_length _ _ _ _ Hr) as Hlen_r.
  rewrite dom_insert_L, dom_fromkeys in Hdom1.
  rewrite dom_insert_L, Hdom1 in Hdom2.
  assert (Hdom : dom batch_x
            = list_to_set (columns (left dp) ++ columns (right dp)
                           ++ ["id_left"; "id_right"])%list).
  { rewrite Hdom2, !list_to_set_app_L. set_solver. }
  split; [exact Hdom|].
  intros k v Hk.
  destruct (decide (k ∈ columns (right dp))) as [HR|HR].
  { destruct (Hin2 k HR) as (v' & Hv' & Hloc).
    rewrite Hk in Hv'. injection Hv' as <-.
    apply traverse_ok_length in Hloc. lia. }
  rewrite Hout2 in Hk by exact HR.
  destruct (decide (k = "id_right")) as [->|Hne_r].
  { rewrite lookup_insert_eq in Hk. injection Hk as <-.
    rewrite length_map. exact Hlen_r. }
  rewrite lookup_insert_ne in Hk by congruence.
  destruct (decide (k ∈ columns (left dp))) as [HL|HL].
  { destruct (Hin1 k HL) as (v' & Hv' & Hloc).
    rewrite Hk in Hv'. injection Hv' as <-.
    apply traverse_ok_length in Hloc. lia. }
  rewrite Hout1 in Hk by exact HL.
  destruct (decide (k = "id_left")) as [->|Hne_l].
  { rewrite lookup_insert_eq in Hk. injection Hk as <-.
    rewrite length_map. exact Hlen_l. }
  rewrite lookup_insert_ne in Hk by congruence.
  assert (Hin : k ∈ dom (fromkeys (columns (left dp) ++ columns (right dp)
                                    ++ ["id_left"; "id_right"])%list
                                  ([] : list value))).
  { apply elem_of_dom. eauto. }
  rewrite dom_fromkeys, !list_to_set_app_L in Hin. set_solver.
Qed.

(** An empty index array is served without a single lookup: whatever
    the tables hold, the request returns a dictionary with every key
    and an empty array under each, and the empty label batch of the
    task.  Only a train-stage request under an unsupported task still
    raises. *)
Theorem empty_index_array_gives_empty_batch
    (self : PointGenerator) (dp : DataPack) :
  (stage dp = "train" -> task_kind (_task self) <> OtherTask) ->
  exists batch_x,
    fst (_get_batch_of_transformed_samples self [] dp)
      = Ok (batch_x,
            if String.eqb (stage dp) "train"
            then empty_labels (task_kind (_task self))
            else LNone)
    /\ dom batch_x
       = list_to_set (columns (left dp) ++ columns (right dp)
                      ++ ["id_left"; "id_right"])%list
    /\ forall k v, batch_x !! k = Some v -> v = [].
Proof.
  intros Htask.
  assert (Hfeat : exists bx, features_of dp [] = Ok bx).
  { unfold features_of, iloc_column. simpl.
    match goal with
    | |- context [gather_columns (left dp) [] ?cols ?bx] =>
        destruct (gather_columns_no_ids (left dp) cols bx) as [bx1 Hbx1]
    end.
    rewrite Hbx1; simpl. apply gather_columns_no_ids. }
  destruct Hfeat as [bx Hbx]. exists bx.
  destruct (features_of_lengths dp [] bx Hbx) as [Hdom Hlen].
  split; [|split; [exact Hdom|]].
  - rewrite get_batch_eq.
    destruct (String.eqb (stage dp) "train") eqn:E; simpl.
    + apply String.eqb_eq in E. specialize (Htask E).
      rewrite features_of_cast, Hbx. unfold encode_labels.
      destruct (task_kind (_task self)); [reflexivity | reflexivity |].
      contradiction.
    + rewrite Hbx. reflexivity.
  - intros k v Hk. apply Hlen in Hk.
    destruct v; [reflexivity | discriminate].
Qed.

Lemma empty_index_array_gives_empty_batch_witness :
  exists batch_x,
    fst (_get_batch_of_transformed_samples (point_generator ranking 1) []
           doc_pack)
      = Ok (batch_x,
            if String.eqb (stage doc_pack) "train"
            then empty_labels (task_kind (_task (point_generator ranking 1)))
            else LNone)
    /\ dom batch_x
       = list_to_set (columns (left doc_pack) ++ columns (right doc_pack)
                      ++ ["id_left"; "id_right"])%list
    /\ forall k v, batch_x !! k = Some v -> v = [].
Proof.
  apply (empty_index_array_gives_empty_batch
           (point_generator ranking 1) doc_pack).
  discriminate.
Defined.

Lemma loc_raise (t : table) (ids : list string) (column : string) (e : exn) :
  loc t ids column = Raise e -> e = KeyError.
Proof.
  unfold loc. revert e. induction ids as [|id ids IH]; intros e; simpl.
  - discriminate.
  - destruct (rows t !! id ≫= (.!! column)) as [x|]; simpl; [|congruence].
    destruct (traverse _ ids) as [xs|e'] eqn:Hxs; simpl; [discriminate|].
    intros [= <-]. apply IH. reflexivity.
Qed.

Lemma gather_columns_raise (t : table) (ids : list string) (cols : list string) :
  forall (batch_x : gmap string (list value)) (e : exn),
  gather_columns t ids cols batch_x = Raise e -> e = KeyError.
Proof.
  induction cols as [|c cols IH]; intros bx e; simpl; [discriminate|].
  destruct (loc t ids c) as [v|e'] eqn:Hloc; simpl.
  - apply IH.
  - intros [= <-]. eapply loc_raise, Hloc.
Qed.

Lemma iloc_column_in_range (f : relation_row -> string)
    (rel : list relation_row) (index_array : list Z) :
  Forall (fun i => - Z.of_nat (length rel) <= i < Z.of_nat (length rel))
         index_array ->
  exists ids, iloc_column f rel index_array = Ok ids.
Proof.
  intros Hrange.
  destruct (traverse_returns
              (fun i => rbind (iloc rel i) (fun r => Ok (f r)))
              (fun _ => True) index_array) as (ids & Hids & _); [|eauto].
  eapply Forall_impl; [exact Hrange|]. intros i Hi.
  destruct (iloc_in_range rel i Hi) as (r & Hr & _).
  rewrite Hr; simpl. eauto.
Qed.

Lemma features_of_resolved_ids (dp : DataPack) (index_array : list Z)
    (batch_x : gmap string (list value)) :
  features_of dp index_array = Ok batch_x ->
  exists ids_left ids_right,
    iloc_column id_left (relation dp) index_array = Ok ids_left
    /\ iloc_column id_right (relation dp) index_array = Ok ids_right
    /\ (forall c, c ∈ columns (left dp) ->
          Forall (fun id => is_Some (rows (left dp) !! id ≫= (.!! c))) ids_left)
    /\ (forall c, c ∈ columns (right dp) ->
          Forall (fun id => is_Some (rows (right dp) !! id ≫= (.!! c)))
                 ids_right).
Proof.
  intros Hrun. unfold features_of in Hrun.
  apply rbind_ok in Hrun as (ids_l & Hl & Hrun).
  apply rbind_ok in Hrun as (bx1 & Hg1 & Hrun).
  apply rbind_ok in Hrun as (ids_r & Hr & Hg2).
  apply gather_columns_ok in Hg1 as (_ & Hin1 & _).
  apply gather_columns_ok in Hg2 as (_ & Hin2 & _).
  exists ids_l, ids_r. split; [exact Hl|]. split; [exact Hr|]. split.
  - intros c Hc. destruct (Hin1 c Hc) as (v & _ & Hloc).
    apply loc_ok in Hloc. apply Forall_lookup_2. intros k id Hid.
    destruct (Forall2_lookup_l _ _ _ _ _ Hloc Hid) as (x & _ & Hx). eauto.
  - intros c Hc. destruct (Hin2 c Hc) as (v & _ & Hloc).
    apply loc_ok in Hloc. apply Forall_lookup_2. intros k id Hid.
    destruct (Forall2_lookup_l _ _ _ _ _ Hloc Hid) as (x & _ & Hx). eauto.
Qed.

Lemma features_of_raise_in_range (dp : DataPack) (index_array : list Z)
    (e : exn) :
  Forall (fun i => - Z.of_nat (length (relation dp)) <= i
                   < Z.of_nat (length (relation dp))) index_array ->
  features_of dp index_array = Raise e -> e = KeyError.
Proof.
  intros Hrange. unfold features_of.
  destruct (iloc_column_in_range id_left (relation dp) index_array Hrange)
    as [ids_l ->].
  destruct (iloc_column_in_range id_right (relation dp) index_array Hrange)
    as [ids_r ->].
  simpl.
  destruct (gather_columns (left dp) ids_l _ _) as [bx1|e1] eqn:Hg1; simpl.
  - apply gather_columns_raise.
  - intros [= <-]. eapply gather_columns_raise, Hg1.
Qed.

(** A batch is returned only if every id of its rows was found: for
    each column of the left table, the row of each left id has a cell
    in it, and the same for the right table.  No row is dropped and no
    cell is filled in for a missing id. *)
Theorem returned_batch_resolved_every_id
    (self : PointGenerator) (index_array : list Z) (dp dp' : DataPack)
    (batch_x : gmap string (list value)) (batch_y : labels) :
  _get_batch_of_transformed_samples self index_array dp
    = (Ok (batch_x, batch_y), dp') ->
  exists ids_left ids_right,
    iloc_column id_left (relation dp) index_array = Ok ids_left
    /\ iloc_column id_right (relation dp) index_array = Ok ids_right
    /\ (forall c, c ∈ columns (left dp) ->
          Forall (fun id => is_Some (rows (left dp) !! id ≫= (.!! c))) ids_left)
    /\ (forall c, c ∈ columns (right dp) ->
          Forall (fun id => is_Some (rows (right dp) !! id ≫= (.!! c)))
                 ids_right).
Proof.
  intros Hrun. apply get_batch_ok_features in Hrun.
  eapply features_of_resolved_ids, Hrun.
Qed.

Lemma returned_batch_resolved_every_id_witness :
  exists ids_left ids_right,
    iloc_column id_left (relation doc_pack) [0] = Ok ids_left
    /\ iloc_column id_right (relation doc_pack) [0] = Ok ids_right
    /\ (forall c, c ∈ columns (left doc_pack) ->
          Forall (fun id => is_Some (rows (left doc_pack) !! id ≫= (.!! c)))
                 ids_left)
    /\ (forall c, c ∈ columns (right doc_pack) ->
          Forall (fun id => is_Some (rows (right doc_pack) !! id ≫= (.!! c)))
                 ids_right).
Proof.
  apply (returned_batch_resolved_every_id
           (point_generator (classification 2) 1) [0] doc_pack doc_pack
           doc_features (LMatrix [[0%Q; 1%Q]])).
  vm_compute. reflexivity.
Defined.

(** A relation row whose id is missing from its entity table stops the
    request with [KeyError], provided that table has a column to look
    up: outside the train stage, with every position within the
    relation table, the pack is left as it was.  (A table without
    columns is never consulted, so its missing ids go unnoticed.) *)
Theorem unknown_id_raises_key_error
    (self : PointGenerator) (index_array : list Z) (dp : DataPack) :
  stage dp <> "train" ->
  Forall (fun i => - Z.of_nat (length (relation dp)) <= i
                   < Z.of_nat (length (relation dp))) index_array ->
  (exists c ids, c ∈ columns (left dp)
                 /\ iloc_column id_left (relation dp) index_array = Ok ids
                 /\ Exists (fun id => rows (left dp) !! id = None) ids)
  \/ (exists c ids, c ∈ columns (right dp)
                    /\ iloc_column id_right (relation dp) index_array = Ok ids
                    /\ Exists (fun id => rows (right dp) !! id = None) ids) ->
  _get_batch_of_transformed_samples self index_array dp = (Raise KeyError, dp).
Proof.
  intros Hstage Hrange Hmissing.
  rewrite get_batch_not_train by exact Hstage.
  destruct (features_of dp index_array) as [bx|e] eqn:Hfeat; simpl.
  - exfalso.
    apply features_of_resolved_ids in Hfeat
      as (ids_l & ids_r & Hl & Hr & Hleft & Hright).
    destruct Hmissing as [(c & ids & Hc & Hids & Hbad)
                         |(c & ids & Hc & Hids & Hbad)].
    + rewrite Hl in Hids. injection Hids as <-.
      specialize (Hleft c Hc). rewrite Forall_forall in Hleft.
      apply Exists_exists in Hbad as (id & Hin & Hnone).
      destruct (Hleft id Hin) as [x Hx]. rewrite Hnone in Hx. discriminate.
    + rewrite Hr in Hids. injection Hids as <-.
      specialize (Hright c Hc). rewrite Forall_forall in Hright.
      apply Exists_exists in Hbad as (id & Hin & Hnone).
      destruct (Hright id Hin) as [x Hx]. rewrite Hnone in Hx. discriminate.
  - apply features_of_raise_in_range in Hfeat as ->; [reflexivity|exact Hrange].
Qed.

Lemma unknown_id_raises_key_error_witness :
  _get_batch_of_transformed_samples
    (point_generator ranking 1) [0] dangling_pack
  = (Raise KeyError, dangling_pack).
Proof.
  apply (unknown_id_raises_key_error (point_generator ranking 1) [0]
           dangling_pack).
  - discriminate.
  - repeat constructor; simpl; lia.
  - left. exists "text_left", ["qid9"].
    split; [set_solver|]. split; [reflexivity|].
    apply Exists_cons_hd. reflexivity.
Defined.

(** ** Sequences of requests *)

Lemma cast_labels_frame (d : dtype) (dp : DataPack) :
  left (cast_labels d dp) = left dp
  /\ right (cast_labels d dp) = right dp
  /\ stage (cast_labels d dp) = stage dp
  /\ map id_left (relation (cast_labels d dp)) = map id_left (relation dp)
  /\ map id_right (relation (cast_labels d dp)) = map id_right (relation dp).
Proof.
  unfold cast_labels; simpl. rewrite !map_map. simpl. auto.
Qed.

(** Whatever the requests, in whatever number and whether they return
    or raise, batch production never changes the entity tables, the
    stage, the ids of the relation rows or their number: all it can
    ever touch are the cells of the label column. *)
Theorem requests_only_touch_label_cells
    (rs : list request) (dp : DataPack) :
  left (serve_all rs dp) = left dp
  /\ right (serve_all rs dp) = right dp
  /\ stage (serve_all rs dp) = stage dp
  /\ map id_left (relation (serve_all rs dp)) = map id_left (relation dp)
  /\ map id_right (relation (serve_all rs dp)) = map id_right (relation dp)
  /\ length (relation (serve_all rs dp)) = length (relation dp).
Proof.
  revert dp. induction rs as [|r rs IH]; intros dp; simpl.
  - auto 6.
  - destruct (IH (serve r dp)) as (Hl & Hr & Hs & Hil & Hir & Hn).
    assert (Hstep : left (serve r dp) = left dp
                    /\ right (serve r dp) = right dp
                    /\ stage (serve r dp) = stage dp
                    /\ map id_left (relation (serve r dp))
                       = map id_left (relation dp)
                    /\ map id_right (relation (serve r dp))
                       = map id_right (relation dp)).
    { rewrite serve_eq. destruct (String.eqb (stage dp) "train");
        [apply cast_labels_frame | auto]. }
    destruct Hstep as (Hl' & Hr' & Hs' & Hil' & Hir').
    repeat split; try congruence.
    rewrite Hn. rewrite <- (length_map id_left (relation (serve r dp))).
    rewrite Hil'. apply length_map.
Qed.

(** At the train stage the casts of successive requests pile up, oldest
    first: after a sequence of requests every label cell is the
    original cell cast through the output dtypes of the requests in
    their order.  (At another stage the label column is never cast.) *)
Theorem labels_after_requests_are_cast_in_order
    (rs : list request) (dp : DataPack) :
  stage dp = "train" ->
  label_column (serve_all rs dp)
  = map (cast_through (map request_dtype rs)) (label_column dp).
Proof.
  revert dp. induction rs as [|r rs IH]; intros dp Hstage; simpl.
  - symmetry. apply map_id.
  - rewrite IH.
    + rewrite serve_eq, Hstage; simpl.
      rewrite label_column_cast, map_map. reflexivity.
    + rewrite serve_eq, Hstage; simpl. exact Hstage.
Qed.

Lemma labels_after_requests_are_cast_in_order_witness :
  label_column (serve_all [ranking_request; classification_request] doc_pack)
  = map (cast_through
           (map request_dtype [ranking_request; classification_request]))
        (label_column doc_pack).
Proof.
  apply (labels_after_requests_are_cast_in_order
           [ranking_request; classification_request] doc_pack).
  reflexivity.
Defined.

(** ** Calling the constructor with a stage keyword *)

Lemma bind_keywords_unknown (params : list (string * option pyval))
    (name : string) (v : pyval) (kwargs : list (string * pyval)) :
  name ∉ map fst params ->
  (name, v) ∈ kwargs ->
  forall env, exists msg, bind_keywords params kwargs env = Raise (TypeError msg).
Proof.
  intros Hname Hin. induction kwargs as [|[k w] kwargs IH]; intros env.
  - inversion Hin.
  - simpl. destruct (bool_decide (k ∈ map fst params)) eqn:Hk; [|eauto].
    destruct (env !! k); [eauto|].
    apply elem_of_cons in Hin as [Heq|Hin].
    + injection Heq as <- <-. apply bool_decide_eq_true in Hk. contradiction.
    + apply IH. exact Hin.
Qed.

Lemma bind_positional_raise (params : list (string * option pyval)) :
  forall (args : list pyval) (e : exn),
  bind_positional params args = Raise e ->
  e = TypeError "too many positional arguments".
Proof.
  induction params as [|[name d] params IH]; intros args e;
    destruct args as [|a args]; simpl; try congruence.
  destruct (bind_positional params args) as [env|e'] eqn:Hb; simpl;
    [discriminate|].
  intros [= <-]. eapply IH, Hb.
Qed.

(** The constructor cannot be given a stage at all: a call that passes
    a [stage] keyword, with whatever other arguments, raises
    [TypeError] while its arguments are bound, before the body runs. *)
Theorem stage_keyword_is_rejected
    (args : list pyval) (kwargs : list (string * pyval)) (v : pyval) :
  ("stage", v) ∈ kwargs ->
  exists msg, PointGenerator_new args kwargs = Raise (TypeError msg).
Proof.
  intros Hin. unfold PointGenerator_new, bind_arguments.
  destruct (bind_positional init_params args) as [env|e] eqn:Hpos; simpl.
  - destruct (bind_keywords_unknown init_params "stage" v kwargs) with (env := env)
      as [msg Hmsg]; [|exact Hin|].
    + simpl. set_solver.
    + rewrite Hmsg. simpl. eauto.
  - apply bind_positional_raise in Hpos as ->. eauto.
Qed.

Lemma stage_keyword_is_rejected_witness :
  exists msg,
    PointGenerator_new [PPack doc_pack; PTask (classification 2); PInt 1]
                       [("stage", PStr "train"); ("shuffle", PBool false)]
    = Raise (TypeError msg).
Proof.
  apply (stage_keyword_is_rejected
           [PPack doc_pack; PTask (classification 2); PInt 1]
           [("stage", PStr "train"); ("shuffle", PBool false)]
           (PStr "train")).
  set_solver.
Defined.

(** * Further properties of saving and loading *)

Section PersistenceFrame.
Context {blob : Type} `{Dill blob}.

Lemma walk_raise (n : node blob) (p : path) (e : exn) :
  walk n p = Raise e -> e = FileNotFoundError \/ e = NotADirectoryError.
Proof.
  revert n. induction p as [|x p IH]; intros n; simpl; [discriminate|].
  destruct n as [data|entries]; [intros [= <-]; auto|].
  destruct (entries !! x); [apply IH | intros [= <-]; auto].
Qed.

Lemma walk_prefix_exists (n : node blob) (p k : path) (m : node blob) :
  walk n (p ++ k)%list = Ok m -> exists m', walk n p = Ok m' /\ walk m' k = Ok m.
Proof.
  rewrite walk_app. intros Hw. apply rbind_ok in Hw. exact Hw.
Qed.

Lemma walk_below_file (n : node blob) (k : path) (m : node blob) (data : blob) :
  n = File data -> walk n k = Ok m -> k = [].
Proof. intros -> Hw. destruct k; [reflexivity | discriminate]. Qed.

(** Writing at [p] keeps every file that is not at or below [p]. *)
Lemma put_keeps_files (p : path) :
  forall (n n' new : node blob) (q : path) (data : blob),
  put n p new = Some n' ->
  walk n q = Ok (File data) ->
  ~ p `prefix_of` q ->
  walk n' q = Ok (File data).
Proof.
  induction p as [|x p IH]; intros n n' new q data Hput Hq Hpre.
  - exfalso. apply Hpre, prefix_nil.
  - simpl in Hput. destruct n as [d|entries]; [discriminate|].
    destruct q as [|y q]; [discriminate|]. simpl in Hq.
    destruct (entries !! y) as [child|] eqn:Hy; [|discriminate].
    destruct (decide (x = y)) as [->|Hxy].
    + destruct p as [|x' p].
      * exfalso. apply Hpre. exists q. reflexivity.
      * rewrite Hy in Hput.
        destruct (put child (x' :: p) new) as [child'|] eqn:Hc; [|discriminate].
        injection Hput as <-. simpl. rewrite lookup_insert_eq.
        eapply IH; [exact Hc | exact Hq |].
        intros Hp. apply Hpre. apply prefix_cons. exact Hp.
    + assert (Hn' : exists c', n' = Dir (<[x := c']> entries)).
      { destruct p as [|x' p]; [injection Hput as <-; eauto|].
        destruct (entries !! x) as [cx|]; [|discriminate].
        destruct (put cx (x' :: p) new) as [cx'|]; [|discriminate].
        injection Hput as <-. eauto. }
      destruct Hn' as [c' ->]. simpl.
      rewrite lookup_insert_ne by exact Hxy. rewrite Hy. exact Hq.
Qed.

Lemma create_state (p : path) (new : node blob) (root root' : node blob)
    (res : result unit) :
  create p new root = (res, root') ->
  root' = root \/ (res = Ok tt /\ put root p new = Some root').
Proof.
  unfold create.
  destruct (walk root (dirname p)) as [[data|entries]|e];
    try (intros [= <- <-]; auto).
  destruct (put root p new) as [r|]; intros [= <- <-]; auto.
Qed.

Lemma create_raise (p : path) (new : node blob) (root root' : node blob)
    (e : exn) :
  create p new root = (Raise e, root') ->
  root' = root /\ (e = FileNotFoundError \/ e = NotADirectoryError).
Proof.
  unfold create.
  destruct (walk root (dirname p)) as [[data|entries]|e'] eqn:Hw.
  - intros [= <- <-]. auto.
  - destruct (put root p new); intros [= <- <-]. auto.
  - intros [= <- <-]. split; [reflexivity|]. eapply walk_raise, Hw.
Qed.

Lemma mkdir_keeps_files (p : path) (root root' : node blob) (res : result unit)
    (q : path) (data : blob) :
  mkdir p root = (res, root') ->
  walk root q = Ok (File data) ->
  walk root' q = Ok (File data).
Proof.
  unfold mkdir. intros Hrun Hq.
  destruct (walk root p) as [m|e] eqn:Hp.
  - injection Hrun as <- <-. exact Hq.
  - apply create_state in Hrun as [-> | [_ Hput]]; [exact Hq|].
    eapply put_keeps_files; [exact Hput | exact Hq |].
    intros [k ->]. apply walk_prefix_exists in Hq as (m' & Hm' & _).
    rewrite Hm' in Hp. discriminate.
Qed.

Lemma dump_keeps_files (self : preprocessor) (p : path)
    (root root' : node blob) (res : result unit) (q : path) (data : blob) :
  dump self p root = (res, root') ->
  walk root q = Ok (File data) ->
  q <> p ->
  walk root' q = Ok (File data).
Proof.
  unfold dump. intros Hrun Hq Hne.
  assert (Hgen : create p (File (dumps self)) root = (res, root') ->
                 (forall es, walk root p <> Ok (Dir es)) ->
                 walk root' q = Ok (File data)).
  { intros Hc Hnodir.
    apply create_state in Hc as [-> | [_ Hput]]; [exact Hq|].
    eapply put_keeps_files; [exact Hput | exact Hq |].
    intros [k ->]. apply walk_prefix_exists in Hq as (m' & Hm' & Hk).
    destruct m' as [d|es].
    - apply (walk_below_file _ _ _ d eq_refl) in Hk as ->.
      apply Hne. apply app_nil_r.
    - eapply Hnodir, Hm'. }
  destruct (walk root p) as [[d|es]|e] eqn:Hp.
  - apply Hgen; [exact Hrun | discriminate].
  - injection Hrun as <- <-. exact Hq.
  - apply Hgen; [exact Hrun | discriminate].
Qed.

Lemma save_keeps_other_files_aux
    (self : preprocessor) (dirpath : path) (root root' : node blob)
    (res : result unit) (q : path) (data : blob) :
  save self dirpath root = (res, root') ->
  walk root q = Ok (File data) ->
  q <> joinpath dirpath DATA_FILENAME ->
  walk root' q = Ok (File data).
Proof.
  rewrite save_eq. intros Hrun Hq Hne.
  destruct (path_exists root (joinpath dirpath DATA_FILENAME)).
  { injection Hrun as <- <-. exact Hq. }
  destruct (negb (path_exists root dirpath)).
  - destruct (mkdir dirpath root) as [[[]|e] root1] eqn:Hmk.
    + eapply dump_keeps_files; [exact Hrun | | exact Hne].
      eapply mkdir_keeps_files; [exact Hmk | exact Hq].
    + injection Hrun as <- <-.
      eapply mkdir_keeps_files; [exact Hmk | exact Hq].
  - eapply dump_keeps_files; [exact Hrun | exact Hq | exact Hne].
Qed.

(** Saving never alters another file: whatever [save] does, returning
    or raising, a file that is not the target [preprocessor.dill] of
    the directory has the same contents afterwards. *)
Theorem save_keeps_other_files
    (self : preprocessor) (dirpath : path) (root root' : node blob)
    (res : result unit) (q : path) (data : blob) :
  save self dirpath root = (res, root') ->
  walk root q = Ok (File data) ->
  q <> joinpath dirpath DATA_FILENAME ->
  walk root' q = Ok (File data).
Proof. apply save_keeps_other_files_aux. Qed.

Lemma save_returns (self : preprocessor) (dirpath : path) (root : node blob) :
  path_exists root (joinpath dirpath DATA_FILENAME) = false ->
  is_dir root dirpath = true
  \/ (path_exists root dirpath = false
      /\ is_dir root (dirname dirpath) = true) ->
  exists root', save self dirpath root = (Ok tt, root').
Proof.
  intros Habsent Hdir. rewrite save_eq, Habsent.
  destruct Hdir as [Hdir | [Hmissing Hparent]].
  - unfold is_dir in Hdir.
    destruct (walk root dirpath) as [[data|entries]|e] eqn:Hwalk;
      try discriminate.
    assert (Hex : path_exists root dirpath = true).
    { unfold path_exists. rewrite Hwalk. reflexivity. }
    rewrite Hex; simpl.
    destruct (dump_below_dir self dirpath root entries Hwalk Habsent)
      as (root' & Hdump & _). eauto.
  - rewrite Hmissing; simpl.
    assert (Hne : dirpath <> []).
    { intros ->. discriminate Hmissing. }
    destruct (exists_last Hne) as (parent & name & ->).
    fold (joinpath parent name) in *.
    rewrite dirname_joinpath in Hparent. unfold is_dir in Hparent.
    destruct (walk root parent) as [[data|entries]|e] eqn:Hwalk;
      try discriminate.
    destruct (create_below_dir parent name (Dir ∅) root entries Hwalk)
      as (root1 & Hcreate & Hnew & _).
    unfold mkdir. unfold path_exists in Hmissing.
    destruct (walk root (joinpath parent name)) as [m|e]; [discriminate|].
    rewrite Hcreate.
    destruct (dump_below_dir self (joinpath parent name) root1 ∅ Hnew)
      as (root' & Hdump & _).
    { unfold path_exists, joinpath at 1. rewrite walk_app, Hnew.
      reflexivity. }
    eauto.
Qed.

Lemma create_ok_parent (p : path) (new : node blob) (root root' : node blob) :
  create p new root = (Ok tt, root') -> is_dir root (dirname p) = true.
Proof.
  unfold create, is_dir.
  destruct (walk root (dirname p)) as [[data|entries]|e];
    [discriminate | reflexivity | discriminate].
Qed.

(** [save] returns exactly when the target file is absent and the
    directory is there, or is absent with its parent directory there.
    In every other case it raises. *)
Theorem save_returns_exactly_when
    (self : preprocessor) (dirpath : path) (root : node blob) :
  (exists root', save self dirpath root = (Ok tt, root'))
  <-> path_exists root (joinpath dirpath DATA_FILENAME) = false
      /\ (is_dir root dirpath = true
          \/ (path_exists root dirpath = false
              /\ is_dir root (dirname dirpath) = true)).
Proof.
  split.
  - intros [root' Hrun]. rewrite save_eq in Hrun.
    destruct (path_exists root (joinpath dirpath DATA_FILENAME)) eqn:Ht;
      [discriminate|].
    split; [reflexivity|].
    destruct (path_exists root dirpath) eqn:Hd; simpl in Hrun.
    + left. unfold dump in Hrun.
      rewrite <- (dirname_joinpath dirpath DATA_FILENAME).
      destruct (walk root (joinpath dirpath DATA_FILENAME)) as [[d|es]|e];
        try (eapply create_ok_parent; exact Hrun).
      discriminate.
    + right. split; [reflexivity|].
      destruct (mkdir dirpath root) as [[[]|e] root1] eqn:Hmk; [|discriminate].
      unfold mkdir in Hmk.
      destruct (walk root dirpath); [discriminate|].
      eapply create_ok_parent; exact Hmk.
  - intros [Habsent Hdir]. apply save_returns; assumption.
Qed.

(** A [save] that raises has changed nothing, and raises one of three
    errors: [FileExistsError] for a target that is present, and
    otherwise [FileNotFoundError] or [NotADirectoryError] for a
    directory that cannot be reached or made. *)
Theorem failed_save_changes_nothing
    (self : preprocessor) (dirpath : path) (root root' : node blob) (e : exn) :
  save self dirpath root = (Raise e, root') ->
  root' = root
  /\ (e = FileExistsError \/ e = FileNotFoundError \/ e = NotADirectoryError)
  /\ (e = FileExistsError
      <-> path_exists root (joinpath dirpath DATA_FILENAME) = true).
Proof.
  rewrite save_eq. intros Hrun.
  destruct (path_exists root (joinpath dirpath DATA_FILENAME)) eqn:Ht.
  { injection Hrun as <- <-. split; [reflexivity|]. split; [auto|].
    split; reflexivity. }
  assert (Hfs : forall e0, e0 = FileNotFoundError \/ e0 = NotADirectoryError ->
                (e0 = FileExistsError \/ e0 = FileNotFoundError
                 \/ e0 = NotADirectoryError)
                /\ (e0 = FileExistsError <-> false = true)).
  { intros e0 [-> | ->]; (split; [auto|]); split; discriminate. }
  destruct (path_exists root dirpath) eqn:Hd; simpl in Hrun.
  - unfold dump, path_exists in *.
    destruct (walk root (joinpath dirpath DATA_FILENAME)) as [m|e0];
      [discriminate|].
    apply create_raise in Hrun as [-> He]. split; [reflexivity|].
    apply Hfs, He.
  - destruct (mkdir dirpath root) as [[[]|e1] root1] eqn:Hmk.
    + exfalso. unfold mkdir in Hmk.
      destruct (walk root dirpath) as [m|e0] eqn:Hw; [discriminate|].
      assert (Hne : dirpath <> []).
      { intros ->. discriminate Hw. }
      apply create_ok in Hmk; [|exact Hne].
      destruct (dump_below_dir self dirpath root1 ∅ Hmk) as (r2 & Hdump & _).
      { unfold path_exists, joinpath. rewrite walk_app, Hmk. reflexivity. }
      rewrite Hdump in Hrun. discriminate.
    + injection Hrun as <- <-. unfold mkdir in Hmk.
      destruct (walk root dirpath) as [m|e0] eqn:Hw.
      * unfold path_exists in Hd. rewrite Hw in Hd. discriminate.
      * apply create_raise in Hmk as [-> He]. split; [reflexivity|].
        apply Hfs, He.
Qed.

End PersistenceFrame.

Lemma save_keeps_other_files_witness :
  walk (snd (save (H := memory_dill) fitted ["other"] saved_root))
       (joinpath ["model"] DATA_FILENAME)
  = Ok (File other_fitted).
Proof.
  apply (save_keeps_other_files (H := memory_dill) fitted ["other"] saved_root
           (snd (save (H := memory_dill) fitted ["other"] saved_root))
           (fst (save (H := memory_dill) fitted ["other"] saved_root))
           (joinpath ["model"] DATA_FILENAME) other_fitted).
  - apply surjective_pairing.
  - reflexivity.
  - discriminate.
Defined.

Lemma save_returns_exactly_when_witness :
  exists root', save (H := memory_dill) fitted ["model"] empty_root = (Ok tt, root').
Proof.
  apply (save_returns_exactly_when (H := memory_dill) fitted ["model"] empty_root).
  split; [reflexivity|]. right. split; reflexivity.
Defined.

Lemma failed_save_changes_nothing_witness :
  empty_root = empty_root
  /\ (FileNotFoundError = FileExistsError
      \/ FileNotFoundError = FileNotFoundError
      \/ FileNotFoundError = NotADirectoryError)
  /\ (FileNotFoundError = FileExistsError
      <-> path_exists empty_root (joinpath ["a"; "b"] DATA_FILENAME) = true).
Proof.
  apply (failed_save_changes_nothing (H := memory_dill) fitted ["a"; "b"]
           empty_root empty_root FileNotFoundError).
  reflexivity.
Defined.

Section PersistenceComposition.
Context {blob : Type} `{Dill blob}.

Lemma save_ok_target (self : preprocessor) (dirpath : path)
    (root root' : node blob) :
  save self dirpath root = (Ok tt, root') ->
  walk root' (joinpath dirpath DATA_FILENAME) = Ok (File (dumps self)).
Proof.
  intros Hsave. rewrite save_eq in Hsave.
  destruct (path_exists root (joinpath dirpath DATA_FILENAME));
    [discriminate|].
  destruct (negb (path_exists root dirpath)).
  - destruct (mkdir dirpath root) as [[[]|e] root1]; [|discriminate].
    eapply dump_ok; [exact Hsave | apply joinpath_not_nil].
  - eapply dump_ok; [exact Hsave | apply joinpath_not_nil].
Qed.

Lemma load_file (dirpath : path) (root : node blob) (obj : preprocessor) :
  walk root (joinpath dirpath DATA_FILENAME) = Ok (File (dumps obj)) ->
  loads (dumps obj) = Some obj ->
  load_preprocessor dirpath root = (Ok obj, root).
Proof.
  intros Hfile Hdill. unfold load_preprocessor, load.
  rewrite Hfile, Hdill. reflexivity.
Qed.

(** Saving does not overwrite: once [save] has returned for a
    directory, a second [save] into it, of whatever object, raises
    [FileExistsError] and changes nothing, and loading from the
    directory still gives the object saved first. *)
Theorem second_save_is_refused
    (first second : preprocessor) (dirpath : path) (root root1 : node blob) :
  loads (dumps first) = Some first ->
  save first dirpath root = (Ok tt, root1) ->
  save second dirpath root1 = (Raise FileExistsError, root1)
  /\ load_preprocessor dirpath root1 = (Ok first, root1).
Proof.
  intros Hdill Hsave. apply save_ok_target in Hsave.
  split.
  - rewrite save_eq. unfold path_exists. rewrite Hsave. reflexivity.
  - apply load_file; assumption.
Qed.

(** Saves into different directories do not disturb each other: after
    two saves that returned, each directory loads its own object. *)
Theorem saves_in_distinct_directories_are_independent
    (p1 p2 : preprocessor) (d1 d2 : path) (root root1 root2 : node blob) :
  loads (dumps p1) = Some p1 ->
  loads (dumps p2) = Some p2 ->
  d1 <> d2 ->
  save p1 d1 root = (Ok tt, root1) ->
  save p2 d2 root1 = (Ok tt, root2) ->
  load_preprocessor d1 root2 = (Ok p1, root2)
  /\ load_preprocessor d2 root2 = (Ok p2, root2).
Proof.
  intros Hdill1 Hdill2 Hne Hsave1 Hsave2.
  apply save_ok_target in Hsave1.
  split.
  - apply load_file; [|exact Hdill1].
    eapply save_keeps_other_files_aux; [exact Hsave2 | exact Hsave1 |].
    unfold joinpath. intros Heq. apply app_inv_tail in Heq. contradiction.
  - apply load_file; [|exact Hdill2]. eapply save_ok_target, Hsave2.
Qed.

(** Loading where nothing was saved: from a directory that exists but
    holds no [preprocessor.dill], [load_preprocessor] raises
    [FileNotFoundError]; from a path that is a regular file it raises
    [NotADirectoryError].  The file system is left alone. *)
Theorem load_without_saved_file_raises (dirpath : path) (root : node blob) :
  (is_dir root dirpath = true ->
   path_exists root (joinpath dirpath DATA_FILENAME) = false ->
   load_preprocessor dirpath root = (Raise FileNotFoundError, root))
  /\ (forall data, walk root dirpath = Ok (File data) ->
        load_preprocessor dirpath root = (Raise NotADirectoryError, root)).
Proof.
  unfold load_preprocessor, load, path_exists, is_dir, joinpath.
  rewrite walk_app. split.
  - intros Hdir Habsent.
    destruct (walk root dirpath) as [[data|entries]|e]; try discriminate.
    simpl in *. destruct (entries !! DATA_FILENAME); [discriminate|].
    reflexivity.
  - intros data ->. reflexivity.
Qed.

End PersistenceComposition.

Lemma second_save_is_refused_witness :
  save (H := memory_dill) other_fitted ["model"]
       (snd (save (H := memory_dill) fitted ["model"] empty_root))
    = (Raise FileExistsError,
       snd (save (H := memory_dill) fitted ["model"] empty_root))
  /\ load_preprocessor (H := memory_dill) ["model"]
       (snd (save (H := memory_dill) fitted ["model"] empty_root))
     = (Ok fitted, snd (save (H := memory_dill) fitted ["model"] empty_root)).
Proof.
  apply (second_save_is_refused (H := memory_dill) fitted other_fitted
           ["model"] empty_root).
  - reflexivity.
  - reflexivity.
Defined.

Lemma saves_in_distinct_directories_are_independent_witness :
  load_preprocessor (H := memory_dill) ["a"]
    (snd (save (H := memory_dill) other_fitted ["b"]
            (snd (save (H := memory_dill) fitted ["a"] empty_root))))
  = (Ok fitted,
     snd (save (H := memory_dill) other_fitted ["b"]
            (snd (save (H := memory_dill) fitted ["a"] empty_root))))
  /\ load_preprocessor (H := memory_dill) ["b"]
       (snd (save (H := memory_dill) other_fitted ["b"]
               (snd (save (H := memory_dill) fitted ["a"] empty_root))))
     = (Ok other_fitted,
        snd (save (H := memory_dill) other_fitted ["b"]
               (snd (save (H := memory_dill) fitted ["a"] empty_root)))).
Proof.
  apply (saves_in_distinct_directories_are_independent (H := memory_dill)
           fitted other_fitted ["a"] ["b"] empty_root
           (snd (save (H := memory_dill) fitted ["a"] empty_root))).
  - reflexivity.
  - reflexivity.
  - discriminate.
  - reflexivity.
  - reflexivity.
Defined.

Lemma load_without_saved_file_raises_witness :
  load_preprocessor (H := memory_dill) [] empty_root
    = (Raise FileNotFoundError, empty_root)
  /\ load_preprocessor (H := memory_dill)
       (joinpath ["model"] DATA_FILENAME) saved_root
     = (Raise NotADirectoryError, saved_root).
Proof.
  split.
  - apply (load_without_saved_file_raises (H := memory_dill) [] empty_root);
      reflexivity.
  - apply (load_without_saved_file_raises (H := memory_dill)
             (joinpath ["model"] DATA_FILENAME) saved_root) with (data := other_fitted).
    reflexivity.
Defined.

(** * Further properties of the abstract base class *)

Lemma filter_nil_Forall {A} (P : A -> Prop) `{!forall x, Decision (P x)}
    (l : list A) :
  filter P l = [] <-> Forall (fun x => ~ P x) l.
Proof.
  induction l as [|x l IH]; simpl.
  - split; [constructor | reflexivity].
  - rewrite filter_cons. destruct (decide (P x)) as [HP|HP].
    + split; [discriminate|]. intros HF. apply Forall_cons in HF as [Hx _].
      contradiction.
    + rewrite IH. split.
      * intros HF. constructor; assumption.
      * intros HF. apply Forall_cons in HF as [_ HF]. exact HF.
Qed.

Lemma is_abstract_own (c : pyclass) (name : string) (m : method) :
  namespace c !! name = Some m -> is_abstract c name = isabstractmethod m.
Proof. intros Hm. unfold is_abstract, getattr. rewrite Hm. reflexivity. Qed.

(** A subclass of the base preprocessor can be instantiated exactly
    when its own body defines both [fit] and [transform] and none of
    the functions it defines is marked abstract.  The new object then
    carries the class's name and an empty context. *)
Theorem instantiable_exactly_when_concrete (c : pyclass) :
  (exists self, instantiate c = Ok self)
  <-> (is_Some (namespace c !! "fit")
       /\ is_Some (namespace c !! "transform")
       /\ forall name m, namespace c !! name = Some m ->
                         isabstractmethod m = false).
Proof.
  assert (Hinst : (exists self, instantiate c = Ok self)
                  <-> abstractmethods c = []).
  { unfold instantiate. destruct (abstractmethods c).
    - split; eauto.
    - split; [intros [self Hs]; discriminate | discriminate]. }
  rewrite Hinst. unfold abstractmethods. split.
  - intros Hnil. apply app_eq_nil in Hnil as [Hown Hbase].
    apply filter_nil_Forall in Hown. apply filter_nil_Forall in Hbase.
    assert (Hall : forall name m, namespace c !! name = Some m ->
                                  isabstractmethod m = false).
    { intros name m Hm. rewrite Forall_forall in Hown.
      specialize (Hown name). rewrite (is_abstract_own c name m Hm) in Hown.
      destruct (isabstractmethod m); [|reflexivity].
      exfalso. apply Hown; [|reflexivity].
      apply list_elem_of_fmap. exists (name, m). split; [reflexivity|].
      apply elem_of_map_to_list. exact Hm. }
    apply Forall_cons in Hbase as [Hfit Hbase].
    apply Forall_cons in Hbase as [Htrans _].
    split; [|split; [|exact Hall]].
    + destruct (namespace c !! "fit") as [m|] eqn:Hm; [eauto|].
      exfalso. apply Hfit. unfold is_abstract, getattr. rewrite Hm. reflexivity.
    + destruct (namespace c !! "transform") as [m|] eqn:Hm; [eauto|].
      exfalso. apply Htrans. unfold is_abstract, getattr. rewrite Hm.
      reflexivity.
  - intros ([f Hf] & [t Ht] & Hall).
    apply app_nil. split; apply filter_nil_Forall.
    + apply Forall_forall. intros name Hname.
      apply list_elem_of_fmap in Hname as ([name' m] & -> & Hin).
      apply elem_of_map_to_list in Hin. simpl.
      rewrite (is_abstract_own c name' m Hin), (Hall name' m Hin).
      discriminate.
    + repeat constructor.
      * rewrite (is_abstract_own c "fit" f Hf), (Hall "fit" f Hf). discriminate.
      * rewrite (is_abstract_own c "transform" t Ht), (Hall "transform" t Ht).
        discriminate.
Qed.

(** What [__init__] leaves behind: a new object has the name of its
    class and an empty context, whatever the class. *)
Lemma instantiate_empty_context (c : pyclass) (self : preprocessor) :
  instantiate c = Ok self ->
  context self = ∅ /\ class_name self = cls_name c.
Proof.
  unfold instantiate. destruct (abstractmethods c); [|discriminate].
  intros [= <-]. split; reflexivity.
Qed.

Lemma instantiable_exactly_when_concrete_witness :
  exists self, instantiate complete_class = Ok self.
Proof.
  apply (instantiable_exactly_when_concrete complete_class).
  split; [|split].
  - eexists. reflexivity.
  - eexists. reflexivity.
  - intros name m Hm.
    destruct (decide (name = "fit")) as [->|Hfit].
    + injection Hm as <-. reflexivity.
    + destruct (decide (name = "transform")) as [->|Htr].
      * injection Hm as <-. reflexivity.
      * unfold complete_class in Hm. cbn [namespace] in Hm.
        rewrite lookup_insert_ne in Hm by congruence.
        rewrite lookup_singleton_ne in Hm by congruence.
        discriminate.
Defined.

(** * Batches are assembled row by row *)

Lemma traverse_app {A B} (f : A -> result B) (xs ys : list A) :
  traverse f (xs ++ ys)%list
  = rbind (traverse f xs) (fun a =>
    rbind (traverse f ys) (fun b => Ok (a ++ b)%list)).
Proof.
  induction xs as [|x xs IH]; simpl.
  - destruct (traverse f ys); reflexivity.
  - destruct (f x) as [y|e]; simpl; [|reflexivity].
    rewrite IH. destruct (traverse f xs) as [a|e]; simpl; [|reflexivity].
    destruct (traverse f ys); reflexivity.
Qed.

Lemma to_option_loc_app (t : table) (a b : list string) (c : string) :
  to_option (loc t (a ++ b)%list c)
  = concat_arrays (to_option (loc t a c)) (to_option (loc t b c)).
Proof.
  unfold loc. rewrite traverse_app.
  destruct (traverse _ a); simpl; [|reflexivity].
  destruct (traverse _ b); reflexivity.
Qed.

Lemma feature_entry_app (dp : DataPack) (a1 a2 b1 b2 : list string)
    (k : string) :
  feature_entry dp (a1 ++ a2)%list (b1 ++ b2)%list k
  = concat_arrays (feature_entry dp a1 b1 k) (feature_entry dp a2 b2 k).
Proof.
  unfold feature_entry.
  destruct (decide (k ∈ columns (right dp))); [apply to_option_loc_app|].
  destruct (decide (k = "id_right")); [simpl; rewrite map_app; reflexivity|].
  destruct (decide (k ∈ columns (left dp))); [apply to_option_loc_app|].
  destruct (decide (k = "id_left")); [simpl; rewrite map_app; reflexivity|].
  reflexivity.
Qed.

Lemma gather_columns_returns_if (t : table) (ids : list string)
    (cols : list string) :
  (forall c, c ∈ cols -> exists v, loc t ids c = Ok v) ->
  forall batch_x, exists batch_x', gather_columns t ids cols batch_x = Ok batch_x'.
Proof.
  induction cols as [|c cols IH]; intros Hloc bx; simpl; [eauto|].
  destruct (Hloc c) as [v Hv]; [left|].
  rewrite Hv; simpl. apply IH. intros c' Hc'. apply Hloc. right. exact Hc'.
Qed.

Lemma features_of_lookup (dp : DataPack) (index_array : list Z)
    (batch_x : gmap string (list value)) :
  features_of dp index_array = Ok batch_x ->
  exists ids_left ids_right,
    iloc_column id_left (relation dp) index_array = Ok ids_left
    /\ iloc_column id_right (relation dp) index_array = Ok ids_right
    /\ (forall c, c ∈ columns (left dp) ->
          exists v, loc (left dp) ids_left c = Ok v)
    /\ (forall c, c ∈ columns (right dp) ->
          exists v, loc (right dp) ids_right c = Ok v)
    /\ forall k, batch_x !! k = feature_entry dp ids_left ids_right k.
Proof.
  intros Hrun. unfold features_of in Hrun.
  apply rbind_ok in Hrun as (ids_l & Hl & Hrun).
  apply rbind_ok in Hrun as (bx1 & Hg1 & Hrun).
  apply rbind_ok in Hrun as (ids_r & Hr & Hg2).
  apply gather_columns_ok in Hg1 as (_ & Hin1 & Hout1).
  apply gather_columns_ok in Hg2 as (_ & Hin2 & Hout2).
  exists ids_l, ids_r. split; [exact Hl|]. split; [exact Hr|].
  split; [|split].
  - intros c Hc. destruct (Hin1 c Hc) as (v & _ & Hv). eauto.
  - intros c Hc. destruct (Hin2 c Hc) as (v & _ & Hv). eauto.
  - intros k. unfold feature_entry.
    destruct (decide (k ∈ columns (right dp))) as [HR|HR].
    { destruct (Hin2 k HR) as (v & Hv & ->). exact Hv. }
    rewrite Hout2 by exact HR.
    destruct (decide (k = "id_right")) as [->|Hne_r];
      [apply lookup_insert_eq|].
    rewrite lookup_insert_ne by congruence.
    destruct (decide (k ∈ columns (left dp))) as [HL|HL].
    { destruct (Hin1 k HL) as (v & Hv & ->). exact Hv. }
    rewrite Hout1 by exact HL.
    destruct (decide (k = "id_left")) as [->|Hne_l];
      [apply lookup_insert_eq|].
    rewrite lookup_insert_ne by congruence.
    apply not_elem_of_dom. rewrite dom_fromkeys, !list_to_set_app_L.
    set_solver.
Qed.

Lemma features_of_build (dp : DataPack) (index_array : list Z)
    (ids_left ids_right : list string) :
  iloc_column id_left (relation dp) index_array = Ok ids_left ->
  iloc_column id_right (relation dp) index_array = Ok ids_right ->
  (forall c, c ∈ columns (left dp) ->
     exists v, loc (left dp) ids_left c = Ok v) ->
  (forall c, c ∈ columns (right dp) ->
     exists v, loc (right dp) ids_right c = Ok v) ->
  exists batch_x, features_of dp index_array = Ok batch_x.
Proof.
  intros Hl Hr Hleft Hright. unfold features_of. rewrite Hl; simpl.
  match goal with
  | |- context [gather_columns (left dp) ids_left ?cols ?bx] =>
      destruct (gather_columns_returns_if (left dp) ids_left cols Hleft bx)
        as [bx1 Hbx1]
  end.
  rewrite Hbx1; simpl. rewrite Hr; simpl.
  apply gather_columns_returns_if. exact Hright.
Qed.

Lemma loc_app_ok (t : table) (a b : list string) (c : string)
    (v1 v2 : list value) :
  loc t a c = Ok v1 -> loc t b c = Ok v2 ->
  loc t (a ++ b)%list c = Ok (v1 ++ v2)%list.
Proof.
  unfold loc. intros H1 H2. rewrite traverse_app, H1, H2. reflexivity.
Qed.

Lemma features_of_app (dp : DataPack) (i1 i2 : list Z)
    (bx1 bx2 : gmap string (list value)) :
  features_of dp i1 = Ok bx1 ->
  features_of dp i2 = Ok bx2 ->
  exists bx,
    features_of dp (i1 ++ i2)%list = Ok bx
    /\ forall k, bx !! k = concat_arrays (bx1 !! k) (bx2 !! k).
Proof.
  intros H1 H2.
  apply features_of_lookup in H1 as (a1 & b1 & Ha1 & Hb1 & HL1 & HR1 & Hk1).
  apply features_of_lookup in H2 as (a2 & b2 & Ha2 & Hb2 & HL2 & HR2 & Hk2).
  assert (Ha : iloc_column id_left (relation dp) (i1 ++ i2)%list
               = Ok (a1 ++ a2)%list).
  { unfold iloc_column in *. rewrite traverse_app, Ha1, Ha2. reflexivity. }
  assert (Hb : iloc_column id_right (relation dp) (i1 ++ i2)%list
               = Ok (b1 ++ b2)%list).
  { unfold iloc_column in *. rewrite traverse_app, Hb1, Hb2. reflexivity. }
  destruct (features_of_build dp (i1 ++ i2)%list _ _ Ha Hb) as [bx Hbx].
  - intros c Hc. destruct (HL1 c Hc) as [v1 Hv1].
    destruct (HL2 c Hc) as [v2 Hv2]. eexists. eapply loc_app_ok; eassumption.
  - intros c Hc. destruct (HR1 c Hc) as [v1 Hv1].
    destruct (HR2 c Hc) as [v2 Hv2]. eexists. eapply loc_app_ok; eassumption.
  - exists bx. split; [exact Hbx|]. intros k.
    apply features_of_lookup in Hbx as (a & b & Ha' & Hb' & _ & _ & Hk).
    rewrite Ha in Ha'. injection Ha' as <-.
    rewrite Hb in Hb'. injection Hb' as <-.
    rewrite Hk, Hk1, Hk2. apply feature_entry_app.
Qed.

Lemma fill_one_hot_app (l1 l2 : list cell) :
  forall (m : list (list Q)) (idx : nat),
  fill_one_hot m idx (l1 ++ l2)%list
  = rbind (fill_one_hot m idx l1)
          (fun m' => fill_one_hot m' (idx + length l1) l2).
Proof.
  induction l1 as [|lab l1 IH]; intros m idx; simpl.
  - rewrite Nat.add_0_r. reflexivity.
  - destruct (setitem2 m idx lab) as [m1|e]; simpl; [|reflexivity].
    rewrite IH. replace (S idx + length l1)%nat with (idx + S (length l1))%nat
      by lia. reflexivity.
Qed.

Lemma fill_one_hot_below (labs : list cell) (t : list (list Q)) :
  forall (m m' : list (list Q)) (idx : nat),
  fill_one_hot m idx labs = Ok m' ->
  fill_one_hot (m ++ t)%list idx labs = Ok (m' ++ t)%list.
Proof.
  induction labs as [|lab labs IH]; intros m m' idx Hrun; simpl in *.
  - injection Hrun as <-. reflexivity.
  - apply rbind_ok in Hrun as (m1 & Hset & Hrun).
    pose proof Hset as Hset'.
    apply setitem2_ok in Hset' as (row & z & Hrow & -> & Hz & ->).
    unfold setitem2 in Hset |- *.
    rewrite lookup_app_l by (eapply lookup_lt_Some, Hrow).
    rewrite Hrow in Hset |- *.
    destruct (_ && _); [|discriminate]. simpl.
    rewrite insert_app_l by (eapply lookup_lt_Some, Hrow).
    apply IH. exact Hrun.
Qed.

Lemma fill_one_hot_above (labs : list cell) (pre : list (list Q)) :
  forall (m m' : list (list Q)) (idx : nat),
  fill_one_hot m idx labs = Ok m' ->
  fill_one_hot (pre ++ m)%list (length pre + idx) labs = Ok (pre ++ m')%list.
Proof.
  induction labs as [|lab labs IH]; intros m m' idx Hrun; simpl in *.
  - injection Hrun as <-. reflexivity.
  - apply rbind_ok in Hrun as (m1 & Hset & Hrun).
    pose proof Hset as Hset'.
    apply setitem2_ok in Hset' as (row & z & Hrow & -> & Hz & ->).
    unfold setitem2 in Hset |- *.
    rewrite lookup_app_r by lia.
    replace (length pre + idx - length pre)%nat with idx by lia.
    rewrite Hrow in Hset |- *.
    destruct (_ && _); [|discriminate]. simpl.
    rewrite insert_app_r.
    replace (S (length pre + idx)) with (length pre + S idx)%nat by lia.
    apply IH. exact Hrun.
Qed.

Lemma encode_labels_app (t : task) (i1 i2 : list Z) (dp : DataPack)
    (y1 y2 : labels) :
  encode_labels t i1 dp = Ok y1 ->
  encode_labels t i2 dp = Ok y2 ->
  encode_labels t (i1 ++ i2)%list dp = Ok (labels_app y1 y2).
Proof.
  unfold encode_labels. destruct (task_kind t) as [|n|].
  - intros H1 H2.
    apply rbind_ok in H1 as (a & Ha & [= <-]).
    apply rbind_ok in H2 as (b & Hb & [= <-]).
    rewrite traverse_app, Ha, Hb. reflexivity.
  - intros H1 H2.
    apply rbind_ok in H1 as (a & Ha & H1).
    apply rbind_ok in H1 as (m1 & Hm1 & [= <-]).
    apply rbind_ok in H2 as (b & Hb & H2).
    apply rbind_ok in H2 as (m2 & Hm2 & [= <-]).
    rewrite traverse_app, Ha, Hb. simpl.
    pose proof (traverse_ok_length _ _ _ Ha) as Hla.
    pose proof (fill_one_hot_ok _ _ _ _ Hm1) as (Hlen1 & _ & _).
    unfold zeros in Hlen1. rewrite length_replicate in Hlen1.
    rewrite length_app. unfold zeros. rewrite replicate_add.
    fold (zeros (length i1) n). fold (zeros (length i2) n).
    rewrite fill_one_hot_app.
    rewrite (fill_one_hot_below a (zeros (length i2) n) _ m1 0 Hm1). simpl.
    replace (length a) with (length m1 + 0)%nat by lia.
    rewrite (fill_one_hot_above b m1 _ m2 0 Hm2). reflexivity.
  - discriminate.
Qed.

(** Batches are assembled row by row.  If two index arrays are each
    served on a pack, so is their concatenation, and its batch is the
    two batches joined: under every key the array of the first batch
    followed by the array of the second, and likewise the label vectors
    or the rows of the label matrices. *)
Theorem batch_of_concatenation_is_concatenation
    (self : PointGenerator) (i1 i2 : list Z) (dp dp1 dp2 : DataPack)
    (bx1 bx2 : gmap string (list value)) (y1 y2 : labels) :
  _get_batch_of_transformed_samples self i1 dp = (Ok (bx1, y1), dp1) ->
  _get_batch_of_transformed_samples self i2 dp = (Ok (bx2, y2), dp2) ->
  exists bx,
    _get_batch_of_transformed_samples self (i1 ++ i2)%list dp
      = (Ok (bx, labels_app y1 y2), dp1)
    /\ forall k, bx !! k = concat_arrays (bx1 !! k) (bx2 !! k).
Proof.
  intros H1 H2.
  pose proof (get_batch_ok_features _ _ _ _ _ _ H1) as Hf1.
  pose proof (get_batch_ok_features _ _ _ _ _ _ H2) as Hf2.
  destruct (features_of_app dp i1 i2 bx1 bx2 Hf1 Hf2) as (bx & Hbx & Hk).
  exists bx. split; [|exact Hk].
  rewrite get_batch_eq in H1, H2 |- *.
  destruct (String.eqb (stage dp) "train"); simpl in *.
  - rewrite features_of_cast in H1, H2 |- *.
    rewrite Hf1 in H1. rewrite Hf2 in H2. rewrite Hbx.
    destruct (encode_labels (_task self) i1 _) as [y1'|e] eqn:Hy1;
      [|discriminate].
    destruct (encode_labels (_task self) i2 _) as [y2'|e] eqn:Hy2;
      [|discriminate].
    simpl in H1, H2. injection H1 as <- <-. injection H2 as <- <-.
    rewrite (encode_labels_app _ _ _ _ _ _ Hy1 Hy2). reflexivity.
  - rewrite Hf1 in H1. rewrite Hf2 in H2. rewrite Hbx.
    simpl in H1, H2. injection H1 as <- <-. injection H2 as <- <-.
    reflexivity.
Qed.

Lemma batch_of_concatenation_is_concatenation_witness :
  exists bx,
    _get_batch_of_transformed_samples
      (point_generator (classification 2) 1) ([0] ++ [0])%list doc_pack
      = (Ok (bx, labels_app (LMatrix [[0%Q; 1%Q]]) (LMatrix [[0%Q; 1%Q]])),
         doc_pack)
    /\ forall k, bx !! k = concat_arrays (doc_features !! k) (doc_features !! k).
Proof.
  apply (batch_of_concatenation_is_concatenation
           (point_generator (classification 2) 1) [0] [0]
           doc_pack doc_pack doc_pack doc_features doc_features).
  - vm_compute. reflexivity.
  - vm_compute. reflexivity.
Defined.
